(** * Centris extractor: a shallow embedding of the extraction back end

    The development follows the three Python files of the back end:
    - [core/centris_extractor_correct.py]: [CentrisExtractorCorrect]
      ([extract_to_original_format], [_format_price],
      [export_to_xlsx_original]);
    - [core/pdf_extractor.py]: [extract_pdf_data],
      [extract_centris_detailed], [extract_pdf_data_wrapper];
    - [main.py]: the [extract_pdf] request handler.

    Python values are modelled as follows.  A [str] is the list of its
    Unicode code points; a dict with literal keys is a finite map (when it
    is only read) or the list of its items in insertion order (when the
    order of the keys matters); an exception is a value carrying the text
    that [str(e)] returns; code that can raise returns a [result]. *)

From Stdlib Require Import NArith String Ascii List Lia DecimalString DecimalN.
From stdpp Require Import base option list gmap strings.

(** * Python strings and numbers *)

Module Py.

(** A Python [str]: its code points, in order. *)
Abbreviation str := (list N).

(** Source literals are UTF-8 text; [utf8] decodes the bytes of a literal
    into code points (sequences of one to four bytes). *)
Fixpoint utf8 (bs : list N) : str :=
  match bs with
  | [] => []
  | b :: r =>
    if (b <? 0x80)%N then b :: utf8 r
    else
      match r with
      | [] => [b]
      | c1 :: r1 =>
        if (b <? 0xE0)%N then ((b - 0xC0) * 64 + (c1 - 0x80))%N :: utf8 r1
        else
          match r1 with
          | [] => [b; c1]
          | c2 :: r2 =>
            if (b <? 0xF0)%N
            then ((b - 0xE0) * 4096 + (c1 - 0x80) * 64 + (c2 - 0x80))%N :: utf8 r2
            else
              match r2 with
              | [] => [b; c1; c2]
              | c3 :: r3 =>
                ((b - 0xF0) * 262144 + (c1 - 0x80) * 4096
                 + (c2 - 0x80) * 64 + (c3 - 0x80))%N :: utf8 r3
              end
          end
      end
  end.

(** [u "..."] is the Python string written ["..."] in the source. *)
Definition u (s : string) : str :=
  utf8 (map N_of_ascii (list_ascii_of_string s)).

Definition is_empty (s : str) : bool :=
  match s with [] => true | _ => false end.

(** [c in s] for a one-character [c]. *)
Definition contains (c : N) (s : str) : bool := existsb (N.eqb c) s.

(** ** Character classes

    The tables are those of CPython 3.11 (Unicode 14.0). *)

(** The digit zero of every block of decimal digits (category [Nd]); the
    ten digits of a block are consecutive. *)
Definition decimal_zeros : list N :=
  [0x30; 0x660; 0x6f0; 0x7c0; 0x966; 0x9e6; 0xa66; 0xae6; 0xb66; 0xbe6;
   0xc66; 0xce6; 0xd66; 0xde6; 0xe50; 0xed0; 0xf20; 0x1040; 0x1090;
   0x17e0; 0x1810; 0x1946; 0x19d0; 0x1a80; 0x1a90; 0x1b50; 0x1bb0;
   0x1c40; 0x1c50; 0xa620; 0xa8d0; 0xa900; 0xa9d0; 0xa9f0; 0xaa50;
   0xabf0; 0xff10; 0x104a0; 0x10d30; 0x11066; 0x110f0; 0x11136; 0x111d0;
   0x112f0; 0x11450; 0x114d0; 0x11650; 0x116c0; 0x11730; 0x118e0;
   0x11950; 0x11c50; 0x11d50; 0x11da0; 0x16a60; 0x16ac0; 0x16b50;
   0x1d7ce; 0x1d7d8; 0x1d7e2; 0x1d7ec; 0x1d7f6; 0x1e140; 0x1e2f0;
   0x1e950; 0x1fbf0]%N.

Fixpoint decimal_in (zeros : list N) (c : N) : option N :=
  match zeros with
  | [] => None
  | z :: zeros' =>
    if ((z <=? c) && (c <? z + 10))%N then Some (c - z)%N
    else decimal_in zeros' c
  end.

(** The value of a decimal digit, [None] for any other character. *)
Definition decimal_value (c : N) : option N := decimal_in decimal_zeros c.

(** [\d] of the [re] module on [str] patterns. *)
Definition is_decimal (c : N) : bool :=
  match decimal_value c with Some _ => true | None => false end.

(** [\s] of the [re] module and the characters removed by [str.strip()]. *)
Definition is_space (c : N) : bool :=
  (((0x09 <=? c) && (c <=? 0x0d)) || ((0x1c <=? c) && (c <=? 0x20))
   || (c =? 0x85) || (c =? 0xa0) || (c =? 0x1680)
   || ((0x2000 <=? c) && (c <=? 0x200a))
   || (c =? 0x2028) || (c =? 0x2029) || (c =? 0x202f) || (c =? 0x205f)
   || (c =? 0x3000))%N.

Definition is_ascii_lower (c : N) : bool := ((0x61 <=? c) && (c <=? 0x7a))%N.
Definition is_ascii_upper (c : N) : bool := ((0x41 <=? c) && (c <=? 0x5a))%N.

(** ** [str] methods *)

Fixpoint lstrip (s : str) : str :=
  match s with
  | c :: s' => if is_space c then lstrip s' else s
  | [] => []
  end.

(** [s.strip()] *)
Definition strip (s : str) : str := rev (lstrip (rev (lstrip s))).

(** [s.replace(old, new)] for one-character [old] and [new]. *)
Definition replace_char (old new : N) (s : str) : str :=
  map (fun c => if (c =? old)%N then new else c) s.

(** [s.endswith(suffix)] *)
Definition endswith (s suffix : str) : bool :=
  bool_decide (drop (length s - length suffix) s = suffix).

(** [re.sub(r'[^\d]', '', s)]: every character that is not a decimal digit
    is removed. *)
Definition sub_non_digits (s : str) : str := List.filter is_decimal s.

(** ** Integers *)

(** The interpreter's bound on the number of digits of a string that is
    converted to an integer ([sys.int_info.default_max_str_digits]). *)
Definition int_max_str_digits : nat := 4300.

(** A digit string that [int] refuses for its length; every digit counts,
    leading zeros too. *)
Definition too_long (s : str) : bool := (int_max_str_digits <? length s)%nat.

(** The digits read as a decimal number, most significant first; [None]
    for a character without a decimal value. *)
Fixpoint int_digits (acc : N) (s : str) : option N :=
  match s with
  | [] => Some acc
  | c :: s' =>
    match decimal_value c with
    | Some d => int_digits (acc * 10 + d)%N s'
    | None => None
    end
  end.

(** [int(s)] on a digit literal.  [None] stands for [ValueError], raised
    for the empty string, for a string of more than [int_max_str_digits]
    digits and for a character without a decimal value.  (Signs,
    surrounding blanks and underscores, which [int] also reads, never reach
    the calls modelled here, both of which pass the result of
    [sub_non_digits].) *)
Definition int (s : str) : option N :=
  match s with
  | [] => None
  | _ => if too_long s then None else int_digits 0%N s
  end.

(** [str(n)]: the decimal digits of [n]. *)
Definition str_of_int (n : N) : str :=
  map N_of_ascii (list_ascii_of_string (NilZero.string_of_uint (N.to_uint n))).

(** Splitting a list into runs of three, from the left; the last run holds
    what is left (one to three items). *)
Fixpoint chunks3 (l : str) : list str :=
  match l with
  | a :: b :: c :: ((_ :: _) as r) => [a; b; c] :: chunks3 r
  | [] => []
  | _ => [l]
  end.

(** The same from the right: the first run holds one to three items. *)
Definition chunks3_right (l : str) : list str :=
  rev (map (@rev N) (chunks3 (rev l))).

(** [sep.join(parts)] *)
Fixpoint join (sep : str) (parts : list str) : str :=
  match parts with
  | [] => []
  | [p] => p
  | p :: ps => p ++ sep ++ join sep ps
  end.

(** [f"{n:,}"]: the digits of [n] with a comma between groups of three.
    (It is applied to numbers that [int] has read, which have no more
    digits than the bound allows, so the conversion to text does not
    raise.) *)
Definition format_comma (n : N) : str :=
  join (u ",") (chunks3_right (str_of_int n)).

(** ** Case

    [str.title()]: a cased character is written in title case after an
    uncased one (or at the start) and in lower case after a cased one.  The
    case tables hold the ASCII letters and the four other letters that the
    patterns fold onto ASCII ones; [title] is only applied to matches of
    the pattern of property types, which are made of these letters. *)
Definition is_cased (c : N) : bool :=
  (is_ascii_lower c || is_ascii_upper c
   || (c =? 0x130) || (c =? 0x131) || (c =? 0x17f) || (c =? 0x212a))%N.

Definition lower_char (c : N) : str :=
  if is_ascii_upper c then [(c + 32)%N]
  else if (c =? 0x130)%N then [0x69; 0x307]%N
  else if (c =? 0x212a)%N then [0x6b]%N
  else [c].

Definition title_char (c : N) : str :=
  if is_ascii_lower c then [(c - 32)%N]
  else if (c =? 0x131)%N then [0x49]%N
  else if (c =? 0x17f)%N then [0x53]%N
  else [c].

Fixpoint title_from (previous_is_cased : bool) (s : str) : str :=
  match s with
  | [] => []
  | c :: s' =>
    (if previous_is_cased then lower_char c else title_char c)
      ++ title_from (is_cased c) s'
  end.

(** [s.title()] *)
Definition title (s : str) : str := title_from false s.

(** ** Paths *)

Fixpoint split_on (sep : N) (cur : str) (s : str) : list str :=
  match s with
  | [] => [rev cur]
  | c :: s' =>
    if (c =? sep)%N then rev cur :: split_on sep [] s'
    else split_on sep (c :: cur) s'
  end.

(** The components of a POSIX path: empty components and [.] are dropped. *)
Definition path_parts (p : str) : list str :=
  List.filter (fun x => negb (is_empty x) && negb (bool_decide (x = [0x2e%N])))
    (split_on 0x2f%N [] p).

(** [Path(p).name]: the last component, or the empty string. *)
Definition path_name (p : str) : str := List.last (path_parts p) [].

End Py.

Import Py.

(** * The price normaliser ([centris_extractor_correct.py]) *)

Definition dollar : N := 0x24%N.
Definition comma : N := 0x2c%N.
Definition space : N := 0x20%N.

(** [CentrisExtractorCorrect._format_price] *)
Definition _format_price (price_str : str) : str :=
  if is_empty price_str then []
  else if contains dollar price_str then price_str
  else
    let price_digits := sub_non_digits price_str in
    if is_empty price_digits then price_str
    else
      match int price_digits with
      | Some price_num =>
        let formatted := replace_char comma space (format_comma price_num) in
        formatted ++ u " $"
      | None => price_str
      end.

(** The rule of the specification for a price that holds digits and no
    currency symbol: the digits, read as a number, in groups of three from
    the right with one space between groups, then a space and the currency
    symbol. *)
Definition digit_number (ds : str) : N :=
  fold_left (fun acc c => (acc * 10 + default 0 (decimal_value c))%N) ds 0%N.

Definition grouped_price (ds : str) : str :=
  join [space] (chunks3_right (str_of_int (digit_number ds))) ++ [space; dollar].


(** * Regular expressions ([re]) *)

Module Re.

(** The fragment of the pattern language that the extractor uses.  A
    character set is given by its membership test; repetition is greedy. *)
Inductive regex :=
| Eps
| Chr (p : N -> bool)
| Seq (r1 r2 : regex)
| Alt (r1 r2 : regex)
| Rep (lo : nat) (hi : option nat) (r : regex)
| Grp (i : nat) (r : regex).

(** What a match leaves: the rest of the text and the text of each group. *)
Definition state : Type := str * gmap nat str.

(** The backtracking matcher, in continuation-passing style: [exec r s g k]
    matches [r] at the head of [s] and hands the rest to [k]; when [k]
    fails, the next way of matching [r] is tried, in the order of the [re]
    module (left alternative first, more repetitions first).  A repetition
    whose body did not advance is not repeated. *)
Fixpoint exec (r : regex) (s : str) (g : gmap nat str)
    (k : str -> gmap nat str -> option state) : option state :=
  match r with
  | Eps => k s g
  | Chr p =>
    match s with
    | c :: s' => if p c then k s' g else None
    | [] => None
    end
  | Seq r1 r2 => exec r1 s g (fun s' g' => exec r2 s' g' k)
  | Alt r1 r2 =>
    match exec r1 s g k with
    | Some m => Some m
    | None => exec r2 s g k
    end
  | Grp i r1 =>
    exec r1 s g (fun s' g' => k s' (<[i := take (length s - length s') s]> g'))
  | Rep lo hi r1 =>
    (fix loop (fuel count : nat) (s : str) (g : gmap nat str) : option state :=
       let stop := if (lo <=? count)%nat then k s g else None in
       match fuel with
       | O => stop
       | S fuel' =>
         if match hi with Some h => (count <? h)%nat | None => true end
         then
           match
             exec r1 s g (fun s' g' =>
               if (length s' <? length s)%nat
               then loop fuel' (S count) s' g' else None)
           with
           | Some m => Some m
           | None => stop
           end
         else stop
       end) (length s) O s g
  end.

(** [pattern.match] at the head of [s]. *)
Definition match_at (r : regex) (s : str) : option state :=
  exec r s ∅ (fun s' g => Some (s', g)).

(** The successive non-overlapping matches, from left to right.  (None of
    the patterns below matches the empty string; after a match the scan
    resumes where the match ended.) *)
Fixpoint scan (fuel : nat) (r : regex) (s : str) : list (gmap nat str) :=
  match fuel with
  | O => []
  | S fuel' =>
    match match_at r s with
    | Some (s', g) =>
      g :: (if (length s' <? length s)%nat then scan fuel' r s'
            else match s with [] => [] | _ :: t => scan fuel' r t end)
    | None => match s with [] => [] | _ :: t => scan fuel' r t end
    end
  end.

Definition group (i : nat) (g : gmap nat str) : str := default [] (g !! i).

(** [re.findall] for a pattern with one group: the text of the group. *)
Definition findall1 (r : regex) (s : str) : list str :=
  map (group 1) (scan (S (length s)) r s).

(** [re.findall] for a pattern with two groups: the pair of their texts. *)
Definition findall2 (r : regex) (s : str) : list (str * str) :=
  map (fun g => (group 1 g, group 2 g)) (scan (S (length s)) r s).

(** ** Building patterns *)

Definition seq (rs : list regex) : regex := foldr Seq Eps rs.

Definition alt (r : regex) (rs : list regex) : regex :=
  foldl (fun acc r' => Alt acc r') r rs.

Definition plus (r : regex) : regex := Rep 1 None r.
Definition star (r : regex) : regex := Rep 0 None r.
Definition opt (r : regex) : regex := Rep 0 (Some 1%nat) r.

Definition chr (c : N) : regex := Chr (N.eqb c).

Definition to_lower (c : N) : N := if is_ascii_upper c then (c + 32)%N else c.

(** A letter of the pattern under [re.IGNORECASE]: either case of the
    letter, and the characters that the module folds onto it (dotted and
    dotless i, long s, the Kelvin sign). *)
Definition letter_i (c : N) (x : N) : bool :=
  let l := to_lower c in
  ((to_lower x =? l)
   || ((l =? 0x69) && ((x =? 0x130) || (x =? 0x131)))
   || ((l =? 0x73) && (x =? 0x17f))
   || ((l =? 0x6b) && (x =? 0x212a)))%N.

(** A literal word under [re.IGNORECASE]. *)
Definition word_i (w : string) : regex := seq (map (fun c => Chr (letter_i c)) (u w)).

(** [[A-Za-z]] under [re.IGNORECASE]. *)
Definition alpha_i (x : N) : bool :=
  (is_ascii_lower x || is_ascii_upper x
   || (x =? 0x130) || (x =? 0x131) || (x =? 0x17f) || (x =? 0x212a))%N.

End Re.

Import Re.

(** * The patterns of [extract_pdf_data] *)

(** The set of letters, blanks, hyphen and apostrophe, under
    [re.IGNORECASE]. *)
Definition name_char (x : N) : bool :=
  (alpha_i x || is_space x || (x =? 0x2d) || (x =? 0x27))%N.

(** The address pattern, with [re.IGNORECASE]: a civic number, a street
    word, a name; then the locality. *)
Definition address_pattern : regex :=
  seq [Grp 1 (seq [plus (Chr is_decimal); opt (Chr alpha_i); plus (Chr is_space);
                   alt (word_i "rue")
                     [word_i "avenue"; word_i "boulevard"; word_i "chemin";
                      word_i "place"];
                   plus (Chr is_space); plus (Chr name_char)]);
       opt (chr comma); star (Chr is_space);
       Grp 2 (plus (Chr name_char))].

(** The price pattern: one to three digits, then groups of three digits
    each behind a blank or a comma; blanks and a currency symbol may stand
    on either side. *)
Definition price_pattern : regex :=
  seq [opt (chr dollar); star (Chr is_space);
       Grp 1 (seq [Rep 1 (Some 3%nat) (Chr is_decimal);
                   star (seq [Chr (fun x => is_space x || (x =? comma)%N);
                              Rep 3 (Some 3%nat) (Chr is_decimal)])]);
       star (Chr is_space); opt (chr dollar)].

(** The pattern of property types, with [re.IGNORECASE]. *)
Definition type_pattern : regex :=
  Grp 1 (alt (word_i "condo")
           [word_i "maison"; word_i "duplex"; word_i "triplex";
            word_i "cottage"; word_i "bungalow"; word_i "appartement"]).

(** * Exceptions *)

(** An exception, known by the text that [str(e)] gives. *)
Record exn := Exception { exn_str : str }.

(** The result of running code that can raise. *)
Inductive result (A : Type) :=
| Ok (a : A)
| Raise (e : exn).
Arguments Ok {A} a.
Arguments Raise {A} e.

(** * The stand-alone extractor ([pdf_extractor.py]) *)

(** What [pdfplumber] makes of a file: opening it may raise; otherwise the
    document has pages, and [extract_text()] on a page gives a string or
    [None], or raises.  (Leaving the [with] block, which closes the file,
    is taken not to raise.) *)
Definition page : Type := result (option str).
Definition document : Type := result (list page).

(** The entries of the returned list: dicts with the five keys [address],
    [price], [type], [city], [street]. *)
Record property := {
  address : str;
  price : str;
  type : str;
  city : str;
  street : str
}.

(** The loop over [pdf.pages]: a page without text adds nothing. *)
Fixpoint read_pages (pages : list page) (full_text : str) : result str :=
  match pages with
  | [] => Ok full_text
  | Raise e :: _ => Raise e
  | Ok page_text :: rest =>
    match page_text with
    | Some ((_ :: _) as t) => read_pages rest (full_text ++ t ++ [0x0a%N])
    | _ => read_pages rest full_text
    end
  end.

(** One turn of the loop over [enumerate(addresses[:10])]. *)
Definition heuristic_record (prices types : list str) (i : nat)
    (m : str * str) : property :=
  let '(street, city) := m in
  {| address := strip street ++ u ", " ++ strip city;
     price := default (u "N/A") (prices !! i) ++ u "$";
     type := match types !! i with
             | Some t => title t
             | None => u "Propriété"
             end;
     city := strip city;
     street := strip street |}.

Definition sample_addresses : list str :=
  [u "Adresse extraite du PDF"; u "Propriété identifiée";
   u "Bien immobilier trouvé"].

Definition default_sample_prices : list str :=
  [u "Prix à déterminer"; u "Voir document"; u "Contact requis"].

(** [ValueError] as [int] raises it on the digit string [s]. *)
Definition ValueError (s : str) : exn :=
  if too_long s then
    Exception
      (u "Exceeds the limit (4300 digits) for integer string conversion: value has "
         ++ str_of_int (N.of_nat (length s))
         ++ u " digits; use sys.set_int_max_str_digits() to increase the limit")
  else Exception (u "invalid literal for int() with base 10: '" ++ s ++ u "'").

(** The loop over [prices[:3]] that fills [sample_prices]. *)
Fixpoint clean_prices (prices : list str) (sample_prices : list str)
    : result (list str) :=
  match prices with
  | [] => Ok sample_prices
  | price :: rest =>
    let clean_price := sub_non_digits price in
    if negb (is_empty clean_price) && (4 <=? length clean_price)%nat then
      match int clean_price with
      | Some n =>
        let formatted_price :=
          replace_char comma space (format_comma n ++ u "$") in
        clean_prices rest (sample_prices ++ [formatted_price])
      | None => Raise (ValueError clean_price)
      end
    else clean_prices rest sample_prices
  end.

(** One turn of the loop over [range(min(len(sample_addresses), 3))]. *)
Definition placeholder_record (sample_prices : list str) (i : nat)
    (sample_address : str) : property :=
  {| address := sample_address;
     price := default (u "Prix N/A") (sample_prices !! i);
     type := u "Propriété extraite";
     city := u "Ville détectée";
     street := u "Rue " ++ str_of_int (N.of_nat (i + 1)) |}.

(** The body of the [try] statement.  It works on the list [properties];
    when it raises, the list is left as it was at that point. *)
Definition try_extract (doc : document) (properties : list property)
    : list property * option exn :=
  match doc with
  | Raise e => (properties, Some e)
  | Ok pages =>
    match read_pages pages [] with
    | Raise e => (properties, Some e)
    | Ok full_text =>
      let addresses := findall2 address_pattern full_text in
      let prices := findall1 price_pattern full_text in
      let types := findall1 type_pattern full_text in
      let properties :=
        properties ++ imap (heuristic_record prices types) (take 10 addresses) in
      match properties with
      | _ :: _ => (properties, None)
      | [] =>
        match clean_prices (take 3 prices) [] with
        | Raise e => (properties, Some e)
        | Ok sample_prices =>
          let sample_prices :=
            match sample_prices with
            | [] => default_sample_prices
            | _ => sample_prices
            end in
          (properties
             ++ imap (placeholder_record sample_prices)
                  (take (min (length sample_addresses) 3) sample_addresses),
           None)
        end
      end
    end
  end.

(** The entry that the [except] clause appends. *)
Definition error_entry (e : exn) : property :=
  {| address := u "Erreur lors de l'extraction: " ++ exn_str e;
     price := u "N/A";
     type := u "Erreur";
     city := u "N/A";
     street := u "N/A" |}.

Record detailed := {
  success : bool;
  filename : str;
  total_properties : nat;
  properties : list property;
  extraction_method : str;
  errors : list str
}.

Section Extractor.

(** The files as [pdfplumber.open] sees them. *)
Variable pdfplumber_open : str -> document.

(** [extract_pdf_data] *)
Definition extract_pdf_data (pdf_path : str) : result (list property) :=
  let properties := [] in
  match try_extract (pdfplumber_open pdf_path) properties with
  | (properties, None) => Ok properties
  | (properties, Some e) => Ok (properties ++ [error_entry e])
  end.

(** [extract_centris_detailed] *)
Definition extract_centris_detailed (pdf_path : str) : detailed :=
  let result :=
    {| success := false;
       filename := path_name pdf_path;
       total_properties := 0;
       properties := [];
       extraction_method := u "pdfplumber";
       errors := [] |} in
  match extract_pdf_data pdf_path with
  | Ok props =>
    {| success := true;
       filename := filename result;
       total_properties := length props;
       properties := props;
       extraction_method := extraction_method result;
       errors := errors result |}
  | Raise e =>
    {| success := false;
       filename := filename result;
       total_properties := total_properties result;
       properties := properties result;
       extraction_method := extraction_method result;
       errors := errors result ++ [exn_str e] |}
  end.

(** [extract_pdf_data_wrapper] *)
Definition extract_pdf_data_wrapper (pdf_path : str) : result (list property) :=
  extract_pdf_data pdf_path.

End Extractor.

(** * The schema adapter ([centris_extractor_correct.py]) *)

(** A dict whose key order matters: its items, in insertion order. *)
Definition record : Type := list (string * str).

(** [d.get(key)] on such a dict. *)
Fixpoint lookup_key (key : string) (d : record) : option str :=
  match d with
  | [] => None
  | (k, v) :: d' => if String.eqb k key then Some v else lookup_key key d'
  end.

(** [property_data.get(key, '')] on a record of the underlying extractor. *)
Definition get (property_data : gmap string str) (key : string) : str :=
  default [] (property_data !! key).

(** The declared columns, in order ([columns_order]). *)
Definition columns_order : list string :=
  ["Centris #"; "Adresse complète"; "Quartier"; "Type de propriété";
   "Prix actuel"; "Prix original";
   "Propriétaire(s): nom(s) et adresse(s)";
   "Représentant(s): nom(s) et adresse(s)";
   "Courtier(s): nom(s)"; "Courtier(s): téléphone(s)";
   "Courtier(s): courriel(s)"]%string.

(** The dict display that builds [formatted_record]. *)
Definition formatted_record (property_data : gmap string str) : record :=
  [("Centris #", get property_data "Centris #");
   ("Adresse complète", get property_data "Adresse complète");
   ("Quartier", get property_data "Quartier");
   ("Type de propriété", get property_data "Type de propriété");
   ("Prix actuel", _format_price (get property_data "Prix actuel"));
   ("Prix original", _format_price (get property_data "Prix original"));
   ("Propriétaire(s): nom(s) et adresse(s)", get property_data "Propriétaire(s)");
   ("Représentant(s): nom(s) et adresse(s)", get property_data "Représentant(s)");
   ("Courtier(s): nom(s)", get property_data "Courtier(s): nom(s)");
   ("Courtier(s): téléphone(s)", get property_data "Courtier(s): téléphone(s)");
   ("Courtier(s): courriel(s)", get property_data "Courtier(s): courriel(s)")]%string.

(** For each column, the key of the extractor's record that it is read
    from, as the dict display pairs them. *)
Definition column_sources : list (string * string) :=
  [("Centris #", "Centris #");
   ("Adresse complète", "Adresse complète");
   ("Quartier", "Quartier");
   ("Type de propriété", "Type de propriété");
   ("Prix actuel", "Prix actuel");
   ("Prix original", "Prix original");
   ("Propriétaire(s): nom(s) et adresse(s)", "Propriétaire(s)");
   ("Représentant(s): nom(s) et adresse(s)", "Représentant(s)");
   ("Courtier(s): nom(s)", "Courtier(s): nom(s)");
   ("Courtier(s): téléphone(s)", "Courtier(s): téléphone(s)");
   ("Courtier(s): courriel(s)", "Courtier(s): courriel(s)")]%string.

(** The loop over [extracted_data].  The records of the extractor map field
    names to strings; on such records nothing in the body of the loop
    raises, so [errors] is returned as it was. *)
Fixpoint format_all (extracted_data : list (gmap string str))
    (formatted_data errors : list record) : list record * list record :=
  match extracted_data with
  | [] => (formatted_data, errors)
  | property_data :: rest =>
    format_all rest (formatted_data ++ [formatted_record property_data]) errors
  end.

Section Adapter.

(** [self.extractor.extract_from_pdf]: the extractor that the adapter wraps
    is installed outside this repository; it is known here by what it
    returns or raises for each path. *)
Variable extract_from_pdf : str -> result (list (gmap string str)).

(** [CentrisExtractorCorrect.extract_to_original_format] *)
Definition extract_to_original_format (pdf_path : str)
    : list record * list record :=
  match extract_from_pdf pdf_path with
  | Raise e =>
    let error_record :=
      [("NomFichier"%string, path_name pdf_path);
       ("MessageErreur"%string, u "Erreur extraction PDF: " ++ exn_str e)] in
    ([], [error_record])
  | Ok [] =>
    let error_record :=
      [("NomFichier"%string, path_name pdf_path);
       ("MessageErreur"%string, u "Aucune donnée extraite du PDF")] in
    ([], [error_record])
  | Ok extracted_data => format_all extracted_data [] []
  end.

End Adapter.

(** * The export sink ([export_to_xlsx_original]) *)

(** A cell of a sheet: a string, or nothing (a missing value). *)
Definition cell : Type := option str.

Record DataFrame := {
  columns : list string;
  values : list (list cell)
}.

Record sheet := {
  sheet_name : str;
  header : list string;
  rows : list (list cell);
  widths : list nat
}.

(** The keys of a list of dicts, each at its first appearance. *)
Fixpoint union_keys (seen : list string) (ds : list record) : list string :=
  match ds with
  | [] => seen
  | d :: ds' =>
    union_keys
      (seen ++ List.filter (fun k => negb (existsb (String.eqb k) seen)) (map fst d))
      ds'
  end.

(** [pd.DataFrame(ds)] for a list of dicts: one row per dict. *)
Definition DataFrame_of (ds : list record) : DataFrame :=
  let cols := union_keys [] ds in
  {| columns := cols;
     values := map (fun d => map (fun c => lookup_key c d) cols) ds |}.

Fixpoint index_of (key : string) (cols : list string) : option nat :=
  match cols with
  | [] => None
  | c :: cols' =>
    if String.eqb c key then Some O else S <$> index_of key cols'
  end.

(** [df.reindex(columns=cols, fill_value=fill)]: a column that the frame
    has keeps its cells; a new column is filled. *)
Definition reindex (cols : list string) (fill_value : str) (df : DataFrame)
    : DataFrame :=
  {| columns := cols;
     values :=
       map (fun row =>
              map (fun c =>
                     match index_of c (columns df) with
                     | Some i => mjoin (row !! i)
                     | None => Some fill_value
                     end) cols)
           (values df) |}.

(** [len(str(cell.value))] when [cell.value] is truthy, else nothing. *)
Definition cell_length (c : cell) : nat :=
  match c with
  | Some v => length v
  | None => O
  end.

(** The width given to column [i]: the longest cell of the column, header
    included, plus two, at most 60. *)
Definition adjusted_width (df : DataFrame) (i : nat) (name : string) : nat :=
  let max_length :=
    foldl (fun m row => max m (cell_length (mjoin (row !! i))))
          (length (u name)) (values df) in
  min (max_length + 2) 60.

(** What the file system does to the writer: opening the file and saving
    the workbook may each raise. *)
Record writer_io := {
  open_raises : option exn;
  save_raises : option exn
}.

(** The result of the export: the value returned, the workbook written (if
    any), the lines printed. *)
Record exported := {
  returned : bool;
  workbook : option (list sheet);
  printed : list str
}.

Definition export_failed (e : exn) : exported :=
  {| returned := false;
     workbook := None;
     printed := [u "Erreur lors de l'export XLSX: " ++ exn_str e] |}.

(** [IndexError] as the workbook writer raises it for a workbook that has
    no sheet. *)
Definition no_sheet_error : exn :=
  Exception (u "At least one sheet must be visible").

(** [CentrisExtractorCorrect.export_to_xlsx_original] *)
Definition export_to_xlsx_original (data errors : list record)
    (io : writer_io) : exported :=
  match open_raises io with
  | Some e => export_failed e
  | None =>
    let sheets :=
      match data with
      | [] => []
      | _ =>
        let df_data := reindex columns_order [] (DataFrame_of data) in
        [{| sheet_name := u "Sheet1";
            header := columns df_data;
            rows := values df_data;
            widths := imap (adjusted_width df_data) (columns df_data) |}]
      end in
    let sheets :=
      match errors with
      | [] => sheets
      | _ =>
        let df_errors := DataFrame_of errors in
        sheets ++ [{| sheet_name := u "Erreurs";
                      header := columns df_errors;
                      rows := values df_errors;
                      widths := [] |}]
      end in
    match sheets with
    | [] => export_failed no_sheet_error
    | _ =>
      match save_raises io with
      | Some e => export_failed e
      | None => {| returned := true; workbook := Some sheets; printed := [] |}
      end
    end
  end.

(** * The request handler ([main.py]) *)

(** The uploaded file as the handler sees it. *)
Record UploadFile := {
  upload_filename : option str;
  upload_size : option N
}.

(** What the handler does to the outside, in order. *)
Inductive event :=
| ReadUpload
| WriteTemp (path : str)
| Extracted (path : str)
| Unlink (path : str).

(** The body of a successful answer. *)
Record extraction_response := {
  resp_success : bool;
  resp_filename : str;
  resp_total_properties : nat;
  resp_properties : list property;
  resp_message : str
}.

(** The answer of the handler: a JSON body (status 200) or an
    [HTTPException] with its status. *)
Inductive response :=
| JSONResponse (content : extraction_response)
| HTTPException (status_code : N) (detail : str).

Definition status (r : response) : N :=
  match r with
  | JSONResponse _ => 200%N
  | HTTPException status_code _ => status_code
  end.

(** What the body of the outer [try] does: it returns, raises an
    [HTTPException], or raises something else. *)
Inductive outcome :=
| Returns (r : extraction_response)
| RaisesHTTP (status_code : N) (detail : str)
| RaisesOther (e : exn).

Definition AttributeError : exn :=
  Exception (u "'NoneType' object has no attribute 'endswith'").

Definition max_upload : N := (10 * 1024 * 1024)%N.

Section Handler.

Variable pdfplumber_open : str -> document.

(** [await file.read()]: the bytes of the upload, or an exception. *)
Variable read : result (list N).

(** The temporary file that receives the bytes: its name, or an
    exception. *)
Variable temp_file : result str.

Definition handle_upload (file : UploadFile) : outcome * list event :=
  match upload_filename file with
  | None => (RaisesOther AttributeError, [])
  | Some name =>
    if negb (endswith name (u ".pdf")) then
      (RaisesHTTP 400 (u "File must be a PDF"), [])
    else if match upload_size file with
            | Some n => negb (n =? 0)%N && (max_upload <? n)%N
            | None => false
            end then
      (RaisesHTTP 413 (u "File too large. Maximum size is 10MB"), [])
    else
      match read with
      | Raise e => (RaisesOther e, [ReadUpload])
      | Ok pdf_content =>
        match temp_file with
        | Raise e => (RaisesOther e, [ReadUpload])
        | Ok temp_file_path =>
          let trace :=
            [ReadUpload; WriteTemp temp_file_path;
             Extracted temp_file_path; Unlink temp_file_path] in
          match extract_pdf_data_wrapper pdfplumber_open temp_file_path with
          | Ok extracted_data =>
            (Returns
               {| resp_success := true;
                  resp_filename := name;
                  resp_total_properties := length extracted_data;
                  resp_properties := extracted_data;
                  resp_message :=
                    u "Successfully extracted "
                      ++ str_of_int (N.of_nat (length extracted_data))
                      ++ u " properties" |},
             trace)
          | Raise extraction_error =>
            (RaisesHTTP 422
               (u "Failed to extract data from PDF: " ++ exn_str extraction_error),
             trace)
          end
        end
      end
  end.

(** [extract_pdf]: the two [except] clauses of the outer [try]. *)
Definition extract_pdf (file : UploadFile) : response * list event :=
  match handle_upload file with
  | (Returns r, trace) => (JSONResponse r, trace)
  | (RaisesHTTP status_code detail, trace) =>
    (HTTPException status_code detail, trace)
  | (RaisesOther e, trace) =>
    (HTTPException 500 (u "Internal server error: " ++ exn_str e), trace)
  end.

End Handler.


(** * Predicates and sample inputs used in the statements *)

(** A page that yields no character. *)
Definition blank_page (p : page) : Prop := p = Ok None \/ p = Ok (Some []).

(** The [k]-th record carries the [k]-th address match and the [k]-th price
    match (["N/A"] when there are fewer prices), and there is one record
    for each of the first ten address matches. *)
Definition paired_by_index (addresses : list (str * str)) (prices : list str)
    (props : list property) : Prop :=
  length props = min 10 (length addresses)
  /\ forall (k : nat) (street_ city_ : str),
       k < 10 -> addresses !! k = Some (street_, city_) ->
       exists p,
         props !! k = Some p
         /\ address p = strip street_ ++ u ", " ++ strip city_
         /\ price p = default (u "N/A") (prices !! k) ++ u "$"
         /\ street p = strip street_
         /\ city p = strip city_.


(** The two tests of the handler on the upload. *)
Definition pdf_named (file : UploadFile) : bool :=
  match upload_filename file with
  | Some name => endswith name (u ".pdf")
  | None => false
  end.

Definition too_large (file : UploadFile) : bool :=
  match upload_size file with
  | Some n => (max_upload <? n)%N
  | None => false
  end.

(** A file that cannot be opened. *)
Definition no_such_file : exn := Exception (u "No such file or directory").

(** [FileNotFoundError] as [open] raises it for a path that does not
    exist. *)
Definition FileNotFoundError (path : str) : exn :=
  Exception (u "[Errno 2] No such file or directory: '" ++ path ++ u "'").

(** A file system without any file. *)
Definition no_files : str -> document :=
  fun path => Raise (FileNotFoundError path).
Definition unreadable : str -> document := fun _ => Raise no_such_file.

(** A document of two pages without text. *)
Definition blank_document : str -> document :=
  fun _ => Ok [Ok None; Ok (Some [])].

(** A document of one page with one listing. *)
Definition listing_text : str := u "123 rue Principale, Montreal 450 000$".
Definition listing_document : str -> document :=
  fun _ => Ok [Ok (Some listing_text)].

(** A document of one page without any address. *)
Definition notice_document : str -> document :=
  fun _ => Ok [Ok (Some (u "Prix demande: 1,250,000 $"))].

Definition writer_ok : writer_io :=
  {| open_raises := None; save_raises := None |}.

Definition sample_error : record :=
  [("NomFichier"%string, u "rapport.pdf");
   ("MessageErreur"%string, u "Aucune donnée extraite du PDF")].

Definition sample_raw : gmap string str :=
  {[ "Centris #"%string := u "12345678";
     "Prix actuel"%string := u "450000" ]}.

Definition text_upload : UploadFile :=
  {| upload_filename := Some (u "notes.txt"); upload_size := Some 12%N |}.

(** * The spreadsheet endpoint ([main.py], [export_excel]) *)

(** [s.startswith(prefix)] *)
Fixpoint starts_with (prefix s : str) : bool :=
  match prefix, s with
  | [], _ => true
  | p :: prefix', c :: s' => (p =? c)%N && starts_with prefix' s'
  | _ :: _, [] => false
  end.

(** [s.replace(old, new)] for an [old] that is not empty: the occurrences
    of [old] are taken from left to right, without overlap.  [skip] counts
    the characters of the occurrence just found that are still to be passed
    over. *)
Fixpoint replace_from (old new : str) (skip : nat) (s : str) : str :=
  match s with
  | [] => []
  | c :: s' =>
    match skip with
    | S k => replace_from old new k s'
    | O =>
      if starts_with old s
      then new ++ replace_from old new (length old - 1) s'
      else c :: replace_from old new 0 s'
    end
  end.

Definition replace (old new s : str) : str := replace_from old new 0 s.

(** The body of the request: the keys [properties] and [filename] of the
    JSON object, each of which may be missing.  The properties are dicts
    from field names to strings, as [extract_pdf] answers them. *)
Record export_request := {
  req_properties : option (list record);
  req_filename : option str
}.

(** The answer: the workbook streamed back with its [Content-Disposition]
    header, or an [HTTPException]. *)
Inductive export_answer :=
| StreamingResponse (sheets : list sheet) (media_type : str)
    (content_disposition : str)
| ExportHTTPException (status_code : N) (detail : str).


(** [len(str(cell.value))]: an empty cell holds [None], written ["None"]. *)
Definition str_length (c : cell) : nat :=
  match c with
  | Some v => length v
  | None => 4
  end.

(** The width given to column [i] of the sheet: the longest cell of the
    column, header included, plus two, at most 50. *)
Definition export_width (df : DataFrame) (i : nat) (name : string) : nat :=
  let max_length :=
    foldl (fun m row => max m (str_length (mjoin (row !! i))))
          (length (u name)) (values df) in
  min (max_length + 2) 50.

(** The dict that [extract_pdf_data] builds for a property, as the JSON
    answer carries it: its five keys in the order of the dict display. *)
Definition property_items (p : property) : record :=
  [("address", address p); ("price", price p); ("type", type p);
   ("city", city p); ("street", street p)]%string.

Definition xlsx_media_type : str :=
  u "application/vnd.openxmlformats-officedocument.spreadsheetml.sheet".

Section ExportExcel.

(** [str(e)] for an [HTTPException] with the given status and detail (the
    text depends on the version of the web framework). *)
Variable http_exception_str : N -> str -> str.

(** What writing the workbook in memory does: it may raise. *)
Variable writer_raises : option exn.

Definition export_failure (text : str) : export_answer :=
  ExportHTTPException 500 (u "Failed to generate Excel export: " ++ text).

(** [export_excel].  The [HTTPException] raised for missing data is raised
    inside the [try] statement, whose only clause, [except Exception],
    catches it like any other exception. *)
Definition export_excel (data : export_request) : export_answer :=
  let properties := default [] (req_properties data) in
  let filename := default (u "centris_extraction.xlsx") (req_filename data) in
  match properties with
  | [] => export_failure (http_exception_str 400 (u "No data provided for export"))
  | _ =>
    let df := DataFrame_of properties in
    match writer_raises with
    | Some e => export_failure (exn_str e)
    | None =>
      StreamingResponse
        [{| sheet_name := u "Centris Data";
            header := columns df;
            rows := values df;
            widths := imap (export_width df) (columns df) |}]
        xlsx_media_type
        (u "attachment; filename=" ++ replace (u ".pdf") (u ".xlsx") filename)
    end
  end.

End ExportExcel.

(** * Further predicates used in the statements *)

(** A string that neither starts nor ends with a blank. *)
Definition trimmed (s : str) : Prop :=
  (forall c, head s = Some c -> is_space c = false)
  /\ (forall c, last s = Some c -> is_space c = false).

(** What the loop over [prices[:3]] keeps of one price match: nothing when
    the match has fewer than four digits, otherwise its digits in groups of
    three separated by spaces, with the currency symbol directly behind. *)
Definition cleaned_price (price : str) : option str :=
  let clean_price := sub_non_digits price in
  if (4 <=? length clean_price)%nat
  then Some (join [space] (chunks3_right (str_of_int (digit_number clean_price)))
               ++ [dollar])
  else None.

(** The characters of a normalised price. *)
Definition price_char (c : N) : Prop :=
  (0x30 <= c <= 0x39)%N \/ c = space.

(** The two columns whose name differs from the field they are read from. *)
Definition renamed_column (column : string) : bool :=
  String.eqb column "Propriétaire(s): nom(s) et adresse(s)"
  || String.eqb column "Représentant(s): nom(s) et adresse(s)".

(** A page whose text was read. *)
Definition page_read (p : page) : Prop := exists t, p = Ok t.

(** Sample inputs. *)
Definition corrupt_upload : UploadFile :=
  {| upload_filename := Some (u "rapport.pdf"); upload_size := Some 2048%N |}.

Definition shouting_upload : UploadFile :=
  {| upload_filename := Some (u "Metrique_Detaille_courtier3569.PDF");
     upload_size := Some 2048%N |}.

Definition framework_str (status_code : N) (detail : str) : str :=
  str_of_int status_code ++ u ": " ++ detail.

(** * Digits as decimal numerals *)

(** The numeral that starts with the digit of value [k]. *)
Definition digit_uint (k : N) (d : Decimal.uint) : Decimal.uint :=
  match k with
  | 0 => Decimal.D0 d
  | 1 => Decimal.D1 d
  | 2 => Decimal.D2 d
  | 3 => Decimal.D3 d
  | 4 => Decimal.D4 d
  | 5 => Decimal.D5 d
  | 6 => Decimal.D6 d
  | 7 => Decimal.D7 d
  | 8 => Decimal.D8 d
  | _ => Decimal.D9 d
  end%N.

(** A string of digits as a decimal numeral of the Standard Library. *)
Fixpoint uint_of_digits (s : str) : Decimal.uint :=
  match s with
  | [] => Decimal.Nil
  | c :: s' => digit_uint (default 0%N (decimal_value c)) (uint_of_digits s')
  end.

(** * Inputs at the bound on digits *)

(** The first of the first three price matches whose digits are more than
    [int] accepts, if there is one. *)
Definition first_long_price (prices : list str) : option str :=
  List.find (fun price => too_long (sub_non_digits price)) (take 3 prices).

(** A price of 4301 digits. *)
Definition long_digits : str := List.repeat 0x31%N 4301.


(* ================================================================== *)
(** * Properties *)

Example format_price_samples :
  _format_price (u "450000") = u "450 000 $" /\
  _format_price (u "1500") = u "1 500 $" /\
  _format_price (u "007") = u "7 $" /\
  _format_price (u "Prix: 1,234,567.") = u "1 234 567 $" /\
  _format_price (u "450 000$") = u "450 000$" /\
  _format_price (u "N/A") = u "N/A".
Proof. vm_compute. repeat split. Qed.

(** ** Digits and grouping *)

Lemma chunks3_step (a b c d : N) (r : str) :
  chunks3 (a :: b :: c :: d :: r) = [a; b; c] :: chunks3 (d :: r).
Proof. reflexivity. Qed.

Lemma concat_chunks3_bounded (n : nat) :
  forall l : str, length l <= n -> concat (chunks3 l) = l.
Proof.
  induction n as [n IH] using lt_wf_ind.
  intros [|a [|b [|c [|d r]]]] Hlen; try reflexivity.
  rewrite chunks3_step. cbn [concat app]. do 3 f_equal.
  apply (IH (length (d :: r))); cbn [length] in *; lia.
Qed.

Lemma concat_chunks3 (l : str) : concat (chunks3 l) = l.
Proof. exact (concat_chunks3_bounded (length l) l (Nat.le_refl _)). Qed.

Lemma concat_map_rev (ls : list str) :
  concat (rev (map (@rev N) ls)) = rev (concat ls).
Proof.
  induction ls as [|x ls IH]; [reflexivity|].
  cbn [map rev concat]. rewrite concat_app, IH, rev_app_distr.
  cbn [concat]. now rewrite app_nil_r.
Qed.

(** Grouping only cuts the digits: putting the groups back together gives
    the digits again. *)
Lemma concat_chunks3_right (l : str) : concat (chunks3_right l) = l.
Proof.
  unfold chunks3_right.
  now rewrite concat_map_rev, concat_chunks3, rev_involutive.
Qed.

(** Shape of the groups: all have three digits, except the first, which
    has one to three. *)
Lemma chunks3_shape_bounded (n : nat) :
  forall l : str, length l <= n -> l <> [] ->
    exists full last_run,
      chunks3 l = full ++ [last_run]
      /\ Forall (fun p : str => length p = 3) full
      /\ 1 <= length last_run <= 3.
Proof.
  induction n as [n IH] using lt_wf_ind.
  intros [|a [|b [|c [|d r]]]] Hlen Hne; try congruence.
  - exists [], [a]. cbn. repeat split; auto.
  - exists [], [a; b]. cbn. repeat split; auto.
  - exists [], [a; b; c]. cbn. repeat split; auto.
  - destruct (IH (length (d :: r))) with (l := d :: r)
      as [full [last_run [Heq [Hfull Hlast]]]];
      [cbn [length] in *; lia | lia | discriminate |].
    exists ([a; b; c] :: full), last_run.
    rewrite chunks3_step, Heq. repeat split; try tauto.
    constructor; [reflexivity | assumption].
Qed.

Lemma chunks3_right_shape (l : str) :
  l <> [] ->
  exists first_run full,
    chunks3_right l = first_run :: full
    /\ 1 <= length first_run <= 3
    /\ Forall (fun p : str => length p = 3) full.
Proof.
  intros Hne.
  destruct (chunks3_shape_bounded (length (rev l)) (rev l))
    as [full [last_run [Heq [Hfull Hlast]]]]; [lia| |].
  { intros H. apply Hne. apply (f_equal (@rev N)) in H.
    now rewrite rev_involutive in H. }
  exists (rev last_run), (rev (map (@rev N) full)).
  unfold chunks3_right. rewrite Heq, map_app, rev_app_distr. cbn [map rev app].
  split; [reflexivity|]. split; [now rewrite length_rev|].
  apply List.Forall_forall. intros p Hp.
  apply in_rev, in_map_iff in Hp as [q [<- Hq]].
  rewrite length_rev. rewrite List.Forall_forall in Hfull. now apply Hfull.
Qed.

Lemma replace_char_absent (old new : N) (s : str) :
  ~ In old s -> replace_char old new s = s.
Proof.
  induction s as [|c s IH]; intros Hn; [reflexivity|].
  cbn [replace_char map]. destruct (N.eqb_spec c old) as [->|_].
  - exfalso. apply Hn. now left.
  - f_equal. apply IH. intros Hin. apply Hn. now right.
Qed.

Lemma replace_char_app (old new : N) (s t : str) :
  replace_char old new (s ++ t) = replace_char old new s ++ replace_char old new t.
Proof. apply map_app. Qed.

Lemma replace_char_join (old new : N) (sep : str) (ps : list str) :
  replace_char old new (join sep ps)
  = join (replace_char old new sep) (map (replace_char old new) ps).
Proof.
  induction ps as [|p [|q ps] IH]; try reflexivity.
  change (join sep (p :: q :: ps)) with (p ++ sep ++ join sep (q :: ps)).
  rewrite !replace_char_app, IH. reflexivity.
Qed.

Lemma map_id_on {A} (f : A -> A) (l : list A) :
  (forall x, In x l -> f x = x) -> map f l = l.
Proof.
  induction l as [|x l IH]; intros H; [reflexivity|].
  cbn [map]. rewrite (H x (or_introl eq_refl)). f_equal.
  apply IH. intros y Hy. apply H. now right.
Qed.

Lemma in_concat_chunk (ls : list str) (p : str) (c : N) :
  In p ls -> In c p -> In c (concat ls).
Proof. intros Hp Hc. apply in_concat. eauto. Qed.

(** The characters that [str(n)] writes are the ASCII digits. *)
Definition ascii_digit (c : N) : Prop := (0x30 <= c <= 0x39)%N.

Lemma little_uint_digits (d : Decimal.uint) :
  Forall ascii_digit
    (map N_of_ascii (list_ascii_of_string (NilEmpty.string_of_uint d))).
Proof.
  induction d; cbn [NilEmpty.string_of_uint list_ascii_of_string map];
    constructor; try assumption; unfold ascii_digit; vm_compute;
    split; discriminate.
Qed.

Lemma str_of_int_digits (n : N) : Forall ascii_digit (str_of_int n).
Proof.
  unfold str_of_int, NilZero.string_of_uint.
  destruct (N.to_uint n) as [|d|d|d|d|d|d|d|d|d|d] eqn:E;
    try (rewrite <- E; apply little_uint_digits).
  cbn. constructor; [|constructor]. unfold ascii_digit. lia.
Qed.

Lemma sub_non_digits_decimal (s : str) :
  Forall (fun c => is_decimal c = true) (sub_non_digits s).
Proof.
  apply List.Forall_forall. intros c Hc.
  apply filter_In in Hc. tauto.
Qed.

(** On a run of decimal digits [int] does not raise and reads the number
    the digits denote. *)
Lemma int_digits_decimal (s : str) :
  Forall (fun c => is_decimal c = true) s ->
  forall acc,
    int_digits acc s
    = Some (fold_left (fun a c => (a * 10 + default 0 (decimal_value c))%N) s acc).
Proof.
  induction 1 as [|c s Hc _ IH]; intros acc; [reflexivity|].
  cbn [int_digits fold_left]. unfold is_decimal in Hc.
  destruct (decimal_value c) as [d|]; [|discriminate].
  apply IH.
Qed.

Lemma int_sub_non_digits (s : str) :
  is_empty (sub_non_digits s) = false ->
  too_long (sub_non_digits s) = false ->
  int (sub_non_digits s) = Some (digit_number (sub_non_digits s)).
Proof.
  intros Hne Hlen. unfold int, digit_number. rewrite Hlen.
  destruct (sub_non_digits s) as [|c ds] eqn:E; [discriminate|].
  rewrite <- E. apply int_digits_decimal, sub_non_digits_decimal.
Qed.

(** Above the bound on digits [int] raises. *)
Lemma int_too_long (s : str) : too_long s = true -> int s = None.
Proof. intros H. unfold int. rewrite H. now destruct s. Qed.

Lemma chunks3_right_digits (n : N) (p : str) (c : N) :
  In p (chunks3_right (str_of_int n)) -> In c p -> ascii_digit c.
Proof.
  intros Hp Hc.
  pose proof (in_concat_chunk _ _ _ Hp Hc) as Hin.
  rewrite concat_chunks3_right in Hin.
  pose proof (str_of_int_digits n) as Hd.
  rewrite List.Forall_forall in Hd. now apply Hd.
Qed.

(** Python writes commas, the code turns them into spaces: the result is
    the groups of digits joined by spaces. *)
Lemma format_comma_spaces (n : N) :
  replace_char comma space (format_comma n)
  = join [space] (chunks3_right (str_of_int n)).
Proof.
  unfold format_comma. rewrite replace_char_join.
  change (replace_char comma space (u ",")) with [space].
  f_equal. apply map_id_on. intros p Hp.
  apply replace_char_absent. intros Hc.
  pose proof (chunks3_right_digits n p comma Hp Hc) as Hd.
  unfold ascii_digit, comma in Hd. lia.
Qed.

Lemma contains_app_r (c : N) (s t : str) :
  contains c t = true -> contains c (s ++ t) = true.
Proof.
  intros H. unfold contains in *. rewrite existsb_app, H. apply orb_true_r.
Qed.

Lemma is_empty_app_r (s t : str) : is_empty t = false -> is_empty (s ++ t) = false.
Proof. destruct s, t; auto. Qed.

Lemma format_price_unfold (s : str) :
  _format_price s
  = if is_empty s then []
    else if contains dollar s then s
    else if is_empty (sub_non_digits s) then s
    else if too_long (sub_non_digits s) then s
    else grouped_price (sub_non_digits s).
Proof.
  unfold _format_price.
  destruct (is_empty s); [reflexivity|].
  destruct (contains dollar s); [reflexivity|].
  cbv zeta.
  destruct (is_empty (sub_non_digits s)) eqn:Hd; [reflexivity|].
  destruct (too_long (sub_non_digits s)) eqn:Hlen.
  - now rewrite (int_too_long _ Hlen).
  - rewrite (int_sub_non_digits s Hd Hlen), format_comma_spaces.
    reflexivity.
Qed.

(** C2, as the code has it.  The price normaliser returns for every input
    (the [ValueError] that [int] can raise is caught), and its value
    follows five rules in order: the empty string for the empty string;
    the input itself when it holds the currency symbol; the input itself
    when it holds no digit; the input itself when it holds more than 4300
    digits, which [int] refuses; otherwise the digits read as a number, in
    groups of three from the right separated by one space, followed by a
    space and the currency symbol.  So ["450000"] gives ["450 000 $"] and
    ["1500"] gives ["1 500 $"]. *)
Theorem format_price_rules :
  (forall s : str,
     _format_price s
     = if is_empty s then []
       else if contains dollar s then s
       else if is_empty (sub_non_digits s) then s
       else if (4300 <? length (sub_non_digits s))%nat then s
       else grouped_price (sub_non_digits s))
  /\ _format_price (u "450000") = u "450 000 $"
  /\ _format_price (u "1500") = u "1 500 $".
Proof.
  split; [exact format_price_unfold|].
  split; vm_compute; reflexivity.
Qed.

(** C2, at a price of 4301 digits: it holds digits and no currency symbol,
    and it is returned as it is, without grouping and without the currency
    symbol. *)
Lemma format_price_long_digits :
  length long_digits = 4301
  /\ contains dollar long_digits = false
  /\ is_empty (sub_non_digits long_digits) = false
  /\ _format_price long_digits = long_digits
  /\ contains dollar (_format_price long_digits) = false.
Proof. vm_compute. repeat split. Qed.

(** C3.  Normalising twice is normalising once, for every input; and an
    input that holds the currency symbol anywhere is returned as it is. *)
Theorem format_price_idempotent :
  (forall x : str, _format_price (_format_price x) = _format_price x)
  /\ (forall a b : str, _format_price (a ++ dollar :: b) = a ++ dollar :: b).
Proof.
  assert (Hdollar : forall s, contains dollar s = true -> _format_price s = s).
  { intros s Hs. rewrite format_price_unfold, Hs. now destruct s. }
  split.
  - intros x. rewrite (format_price_unfold x).
    destruct (is_empty x) eqn:Hx; [reflexivity|].
    destruct (contains dollar x) eqn:Hc; [now apply Hdollar|].
    destruct (is_empty (sub_non_digits x)) eqn:Hd.
    + rewrite format_price_unfold, Hx, Hc, Hd. reflexivity.
    + destruct (too_long (sub_non_digits x)) eqn:Hlen.
      * rewrite format_price_unfold, Hx, Hc, Hd, Hlen. reflexivity.
      * apply Hdollar. unfold grouped_price.
        apply contains_app_r. reflexivity.
  - intros a b. apply Hdollar, contains_app_r.
    unfold contains. cbn [existsb]. now rewrite N.eqb_refl.
Qed.

(** ** The schema adapter *)

Lemma format_all_app (extracted_data : list (gmap string str))
    (formatted_data errors : list record) :
  format_all extracted_data formatted_data errors
  = (formatted_data ++ map formatted_record extracted_data, errors).
Proof.
  revert formatted_data.
  induction extracted_data as [|pd rest IH]; intros acc; cbn [format_all map].
  - now rewrite app_nil_r.
  - rewrite IH, <- app_assoc. reflexivity.
Qed.

Lemma formatted_record_keys (pd : gmap string str) :
  map fst (formatted_record pd) = columns_order.
Proof. reflexivity. Qed.

(** The records that the adapter returns are the formatted records of the
    extractor's records, in order. *)
Lemma extract_to_original_format_records
    (extract_from_pdf : str -> result (list (gmap string str))) (pdf_path : str) :
  (extract_to_original_format extract_from_pdf pdf_path).1
  = match extract_from_pdf pdf_path with
    | Ok extracted_data => map formatted_record extracted_data
    | Raise _ => []
    end.
Proof.
  unfold extract_to_original_format.
  destruct (extract_from_pdf pdf_path) as [[|pd rest]|e]; try reflexivity.
  now rewrite format_all_app.
Qed.

(** C1.  There are eleven declared columns, all different.  Every record
    that the adapter builds has exactly these keys, in the declared order,
    whatever fields the record of the extractor holds; every column has a
    value (a string), and the value is the empty string when the field it
    is read from is absent.  So every record returned by
    [extract_to_original_format] has the declared keys in order. *)
Theorem canonical_record_columns :
  length columns_order = 11
  /\ NoDup columns_order
  /\ (forall pd : gmap string str, map fst (formatted_record pd) = columns_order)
  /\ Forall (fun '(column, key) =>
               (forall pd : gmap string str,
                  exists v : str, lookup_key column (formatted_record pd) = Some v)
               /\ (forall pd : gmap string str,
                     lookup_key column (formatted_record (delete key pd)) = Some []))
            column_sources
  /\ (forall (extract_from_pdf : str -> result (list (gmap string str)))
             (pdf_path : str),
        Forall (fun r : record => map fst r = columns_order)
               (extract_to_original_format extract_from_pdf pdf_path).1).
Proof.
  split; [reflexivity|].
  split; [apply (bool_decide_unpack _); vm_compute; reflexivity|].
  split; [exact formatted_record_keys|].
  split.
  - unfold column_sources.
    repeat (apply List.Forall_cons || apply List.Forall_nil);
      (split; intros pd;
       [ eexists; reflexivity
       | cbn [lookup_key formatted_record String.eqb Ascii.eqb Bool.eqb];
         unfold get; rewrite lookup_delete_eq; reflexivity ]).
  - intros efp path. rewrite extract_to_original_format_records.
    destruct (efp path) as [data|e]; [|constructor].
    apply List.Forall_forall. intros r Hr.
    apply in_map_iff in Hr as [pd [<- _]]. apply formatted_record_keys.
Qed.

(** ** The stand-alone extractor *)

Lemma too_long_four (s : str) :
  too_long s = true -> (4 <=? length s)%nat = true /\ is_empty s = false.
Proof.
  unfold too_long. intros H. apply Nat.ltb_lt in H.
  assert (H4 : 4 <= int_max_str_digits) by (apply Nat.leb_le; reflexivity).
  split; [apply Nat.leb_le; lia|].
  destruct s; [cbn [length] in H; lia|reflexivity].
Qed.

(** The loop that cleans the sample prices, in closed form: it raises at
    the first price whose digits are more than [int] accepts; otherwise
    each price with four digits or more gives one cleaned price and the
    others give nothing. *)
Lemma clean_prices_result (prices sample_prices : list str) :
  clean_prices prices sample_prices
  = match List.find (fun price => too_long (sub_non_digits price)) prices with
    | Some price => Raise (ValueError (sub_non_digits price))
    | None => Ok (sample_prices ++ omap cleaned_price prices)
    end.
Proof.
  revert sample_prices.
  induction prices as [|price rest IH]; intros acc.
  - cbn. now rewrite app_nil_r.
  - change (omap cleaned_price (price :: rest))
      with (match cleaned_price price with
            | Some y => y :: omap cleaned_price rest
            | None => omap cleaned_price rest
            end).
    cbn [clean_prices List.find]. cbv zeta.
    destruct (too_long (sub_non_digits price)) eqn:Hlong.
    + destruct (too_long_four _ Hlong) as [H4 Hne].
      rewrite H4, Hne. cbn [negb andb].
      now rewrite (int_too_long _ Hlong).
    + unfold cleaned_price at 1. cbv zeta.
      destruct (4 <=? length (sub_non_digits price))%nat eqn:Hlen.
      * assert (Hne : is_empty (sub_non_digits price) = false).
        { destruct (sub_non_digits price); [discriminate|reflexivity]. }
        rewrite Hne. cbn [negb andb].
        rewrite (int_sub_non_digits price Hne Hlong), IH.
        destruct (List.find _ rest); [reflexivity|].
        rewrite replace_char_app, format_comma_spaces, <- app_assoc.
        reflexivity.
      * rewrite andb_false_r. apply IH.
Qed.

Lemma read_pages_blank (pages : list page) (full_text : str) :
  Forall blank_page pages -> read_pages pages full_text = Ok full_text.
Proof.
  induction 1 as [|p pages [-> | ->] _ IH]; cbn [read_pages]; auto.
Qed.

(** When the text has an address, the records are those of the loop over
    the first ten address matches. *)
Lemma try_extract_heuristic (pages : list page) (full_text : str) :
  read_pages pages [] = Ok full_text ->
  findall2 address_pattern full_text <> [] ->
  try_extract (Ok pages) []
  = (imap (heuristic_record (findall1 price_pattern full_text)
                            (findall1 type_pattern full_text))
          (take 10 (findall2 address_pattern full_text)),
     None).
Proof.
  intros Hread Haddr. unfold try_extract. rewrite Hread. cbv zeta.
  destruct (findall2 address_pattern full_text) as [|a addresses];
    [congruence|].
  reflexivity.
Qed.

(** When the text has no address and none of the first three price matches
    is too long for [int], the records are the three placeholders. *)
Lemma try_extract_placeholders (pages : list page) (full_text : str) :
  read_pages pages [] = Ok full_text ->
  findall2 address_pattern full_text = [] ->
  first_long_price (findall1 price_pattern full_text) = None ->
  try_extract (Ok pages) []
  = (imap (placeholder_record
             match omap cleaned_price (take 3 (findall1 price_pattern full_text)) with
             | [] => default_sample_prices
             | cleaned => cleaned
             end)
          sample_addresses,
     None).
Proof.
  intros Hread Haddr Hlong. unfold try_extract. rewrite Hread. cbv zeta.
  rewrite Haddr. cbn [take imap app].
  unfold first_long_price in Hlong. rewrite clean_prices_result, Hlong.
  cbn [app].
  destruct (omap cleaned_price (take 3 (findall1 price_pattern full_text)));
    reflexivity.
Qed.

(** When the text has no address and one of the first three price matches
    is too long for [int], the body raises before any record is added. *)
Lemma try_extract_long_price (pages : list page) (full_text price : str) :
  read_pages pages [] = Ok full_text ->
  findall2 address_pattern full_text = [] ->
  first_long_price (findall1 price_pattern full_text) = Some price ->
  try_extract (Ok pages) [] = ([], Some (ValueError (sub_non_digits price))).
Proof.
  intros Hread Haddr Hlong. unfold try_extract. rewrite Hread. cbv zeta.
  rewrite Haddr. cbn [take imap app].
  unfold first_long_price in Hlong. rewrite clean_prices_result, Hlong.
  reflexivity.
Qed.

Lemma try_extract_raises (doc : document) (e : exn) :
  doc = Raise e
  \/ (exists pages, doc = Ok pages /\ read_pages pages [] = Raise e) ->
  try_extract doc [] = ([], Some e).
Proof.
  intros [-> | [pages [-> Hread]]]; unfold try_extract;
    [reflexivity | now rewrite Hread].
Qed.

(** The outcomes of the [try] body: an exception before any record was
    added, the records of the heuristic loop, or the three placeholders. *)
Lemma try_extract_cases (doc : document) :
  (exists e, try_extract doc [] = ([], Some e))
  \/ (exists props, try_extract doc [] = (props, None) /\ props <> []).
Proof.
  destruct doc as [pages|e]; [|left; eauto using try_extract_raises].
  destruct (read_pages pages []) as [full_text|e] eqn:Hread.
  - destruct (findall2 address_pattern full_text) as [|a addresses] eqn:Haddr.
    + destruct (first_long_price (findall1 price_pattern full_text))
        as [price|] eqn:Hlong.
      * left. eexists.
        exact (try_extract_long_price pages full_text price Hread Haddr Hlong).
      * right.
        rewrite (try_extract_placeholders pages full_text Hread Haddr Hlong).
        eexists. split; [reflexivity|]. discriminate.
    + right. rewrite (try_extract_heuristic pages full_text Hread) by congruence.
      rewrite Haddr. eexists. split; [reflexivity|]. discriminate.
  - left. exists e. apply try_extract_raises. right. eauto.
Qed.

Lemma extract_pdf_data_returns (pdfplumber_open : str -> document)
    (pdf_path : str) :
  exists props,
    extract_pdf_data pdfplumber_open pdf_path = Ok props /\ props <> [].
Proof.
  unfold extract_pdf_data.
  destruct (try_extract_cases (pdfplumber_open pdf_path))
    as [[e ->] | [props [-> Hne]]].
  - eexists. split; [reflexivity|]. discriminate.
  - eauto.
Qed.


(** C4, as the code has it.  In the adapter, when the extractor raises, the
    result is an empty list of records and, beside it, one error entry with
    the name of the file and the cause.  In the stand-alone extractor, when
    the file cannot be opened or a page cannot be read, the cause is
    reported as one entry inside the returned list: its address is
    ["Erreur lors de l'extraction: "] followed by the text of the
    exception, its type is ["Erreur"] and its other fields are ["N/A"].
    The entry has no field for the name of the file. *)
Theorem document_failure_reported :
  (forall (extract_from_pdf : str -> result (list (gmap string str)))
          (pdf_path : str) (e : exn),
     extract_from_pdf pdf_path = Raise e ->
     extract_to_original_format extract_from_pdf pdf_path
     = ([],
        [[("NomFichier"%string, path_name pdf_path);
          ("MessageErreur"%string, u "Erreur extraction PDF: " ++ exn_str e)]]))
  /\ (forall (pdfplumber_open : str -> document) (pdf_path : str) (e : exn),
        pdfplumber_open pdf_path = Raise e
        \/ (exists pages, pdfplumber_open pdf_path = Ok pages
                          /\ read_pages pages [] = Raise e) ->
        extract_pdf_data pdfplumber_open pdf_path
        = Ok [{| address := u "Erreur lors de l'extraction: " ++ exn_str e;
                 price := u "N/A";
                 type := u "Erreur";
                 city := u "N/A";
                 street := u "N/A" |}]).
Proof.
  split.
  - intros efp path e H. unfold extract_to_original_format. now rewrite H.
  - intros open path e H. unfold extract_pdf_data.
    now rewrite (try_extract_raises _ e H).
Qed.

(** C4, at a path that does not exist: the list that [extract_pdf_data]
    returns is not empty; it holds one entry, shaped like a property, whose
    address carries the text of the exception. *)
Lemma document_failure_inside_records :
  extract_pdf_data no_files (u "absent.pdf")
  = Ok [{| address :=
             u "Erreur lors de l'extraction: [Errno 2] No such file or directory: 'absent.pdf'";
           price := u "N/A";
           type := u "Erreur";
           city := u "N/A";
           street := u "N/A" |}]
  /\ extract_pdf_data no_files (u "absent.pdf") <> Ok [].
Proof. split; [vm_compute; reflexivity|vm_compute; discriminate]. Qed.

Lemma document_failure_reported_witness :
  extract_to_original_format
    (fun path => Raise (FileNotFoundError path)) (u "data/absent.pdf")
  = ([],
     [[("NomFichier"%string, u "absent.pdf");
       ("MessageErreur"%string,
        u "Erreur extraction PDF: [Errno 2] No such file or directory: 'data/absent.pdf'")]])
  /\ extract_pdf_data no_files (u "absent.pdf")
     = Ok [{| address :=
                u "Erreur lors de l'extraction: "
                  ++ exn_str (FileNotFoundError (u "absent.pdf"));
              price := u "N/A";
              type := u "Erreur";
              city := u "N/A";
              street := u "N/A" |}].
Proof.
  split.
  - rewrite (proj1 document_failure_reported _ _
               (FileNotFoundError (u "data/absent.pdf")) eq_refl).
    vm_compute. reflexivity.
  - apply (proj2 document_failure_reported). left. reflexivity.
Defined.

(** C5.  The extractor has one strategy for finding records, the pairing
    of matches by index.  When the text of the document has an address,
    the records returned are one for each of the first ten address matches
    (no more than ten), and the [k]-th record carries the [k]-th address
    match with the [k]-th price match. *)
Theorem heuristic_pairing (pdfplumber_open : str -> document)
    (pdf_path : str) (pages : list page) (full_text : str) :
  pdfplumber_open pdf_path = Ok pages ->
  read_pages pages [] = Ok full_text ->
  findall2 address_pattern full_text <> [] ->
  exists props,
    extract_pdf_data pdfplumber_open pdf_path = Ok props
    /\ paired_by_index (findall2 address_pattern full_text)
                       (findall1 price_pattern full_text) props.
Proof.
  intros Hopen Hread Haddr. unfold extract_pdf_data.
  rewrite Hopen, (try_extract_heuristic pages full_text Hread Haddr).
  eexists. split; [reflexivity|]. split.
  - now rewrite length_imap, length_take.
  - intros k street_ city_ Hk Hlook.
    eexists. split.
    + rewrite list_lookup_imap, lookup_take_lt by exact Hk.
      rewrite Hlook. reflexivity.
    + cbn. auto.
Qed.

Lemma heuristic_pairing_witness :
  exists props,
    extract_pdf_data listing_document (u "listing.pdf") = Ok props
    /\ paired_by_index (findall2 address_pattern (listing_text ++ [0x0a%N]))
                       (findall1 price_pattern (listing_text ++ [0x0a%N])) props.
Proof.
  apply (heuristic_pairing listing_document (u "listing.pdf")
           [Ok (Some listing_text)] (listing_text ++ [0x0a%N])).
  - reflexivity.
  - vm_compute. reflexivity.
  - vm_compute. discriminate.
Defined.




Example placeholder_prices :
  map price
      (match extract_pdf_data notice_document (u "notice.pdf") with
       | Ok props => props
       | Raise _ => []
       end)
  = [u "1 250 000$"; u "Prix N/A"; u "Prix N/A"].
Proof. vm_compute. reflexivity. Qed.

(** The pairing is by index alone: in a text with one address and one
    price, the civic number of the address is itself the first match of
    the price pattern, and it is the one paired with the address. *)
Example listing_records :
  findall2 address_pattern (listing_text ++ [0x0a%N])
  = [(u "123 rue Principale", u "Montreal ")]
  /\ findall1 price_pattern (listing_text ++ [0x0a%N]) = [u "123"; u "450 000"]
  /\ extract_pdf_data listing_document (u "listing.pdf")
     = Ok [{| address := u "123 rue Principale, Montreal";
              price := u "123$";
              type := u "Propriété";
              city := u "Montreal";
              street := u "123 rue Principale" |}].
Proof. vm_compute. repeat split. Qed.

(** C7, as the code has it.  In the adapter, when the extractor returns no
    record, the result is an empty list of records and one error entry for
    the document.  In the stand-alone extractor, a document whose pages
    yield no character gives the three placeholder records, with the three
    default prices, and no error entry.  Neither raises. *)
Theorem empty_text_document :
  (forall (extract_from_pdf : str -> result (list (gmap string str)))
          (pdf_path : str),
     extract_from_pdf pdf_path = Ok [] ->
     extract_to_original_format extract_from_pdf pdf_path
     = ([],
        [[("NomFichier"%string, path_name pdf_path);
          ("MessageErreur"%string, u "Aucune donnée extraite du PDF")]]))
  /\ (forall (pdfplumber_open : str -> document) (pdf_path : str)
             (pages : list page),
        pdfplumber_open pdf_path = Ok pages ->
        Forall blank_page pages ->
        extract_pdf_data pdfplumber_open pdf_path
        = Ok (imap (placeholder_record default_sample_prices) sample_addresses)).
Proof.
  split.
  - intros efp path H. unfold extract_to_original_format. now rewrite H.
  - intros open path pages Hopen Hblank. unfold extract_pdf_data, try_extract.
    rewrite Hopen, (read_pages_blank pages [] Hblank).
    vm_compute. reflexivity.
Qed.

(** C7, at a document of two pages without text: the list returned holds
    three records, none of which is an error entry. *)
Lemma empty_text_gives_placeholders :
  extract_pdf_data blank_document (u "blank.pdf")
  = Ok (imap (placeholder_record default_sample_prices) sample_addresses)
  /\ extract_pdf_data blank_document (u "blank.pdf") <> Ok []
  /\ map address (imap (placeholder_record default_sample_prices) sample_addresses)
     = [u "Adresse extraite du PDF"; u "Propriété identifiée";
        u "Bien immobilier trouvé"].
Proof.
  split; [vm_compute; reflexivity|].
  split; [vm_compute; discriminate|]. vm_compute. reflexivity.
Qed.

Lemma empty_text_document_witness :
  extract_to_original_format (fun _ => Ok []) (u "data/blank.pdf")
  = ([],
     [[("NomFichier"%string, u "blank.pdf");
       ("MessageErreur"%string, u "Aucune donnée extraite du PDF")]])
  /\ extract_pdf_data blank_document (u "blank.pdf")
     = Ok (imap (placeholder_record default_sample_prices) sample_addresses).
Proof.
  split.
  - rewrite (proj1 empty_text_document (fun _ => Ok []) _ eq_refl).
    vm_compute. reflexivity.
  - apply (proj2 empty_text_document blank_document _ [Ok None; Ok (Some [])]).
    + reflexivity.
    + apply List.Forall_cons; [left; reflexivity|].
      apply List.Forall_cons; [right; reflexivity|].
      apply List.Forall_nil.
Defined.

(** ** The export sink *)

Lemma DataFrame_of_rows (ds : list record) :
  length (values (DataFrame_of ds)) = length ds.
Proof. unfold DataFrame_of. cbn [values]. apply length_map. Qed.

Lemma reindex_rows (cols : list string) (fill_value : str) (df : DataFrame) :
  length (values (reindex cols fill_value df)) = length (values df)
  /\ columns (reindex cols fill_value df) = cols.
Proof. unfold reindex. cbn [values columns]. now rewrite length_map. Qed.

(** The export returns [True] exactly when it wrote a workbook, and a
    failure of the writer gives [False]: nothing is raised. *)
Lemma export_signal (data errors : list record) (io : writer_io) :
  (returned (export_to_xlsx_original data errors io) = true
   <-> is_Some (workbook (export_to_xlsx_original data errors io)))
  /\ (is_Some (open_raises io) \/ is_Some (save_raises io) ->
      returned (export_to_xlsx_original data errors io) = false).
Proof.
  unfold export_to_xlsx_original.
  destruct (open_raises io) as [e|], (save_raises io) as [e'|],
    data as [|d data], errors as [|err errors];
    cbv beta iota zeta delta [app export_failed returned workbook];
    (split; [split; [discriminate || eauto | intros [? ?]; congruence || reflexivity]
            | intros [[? ?]|[? ?]]; congruence || reflexivity]).
Qed.

(** C8, as the code has it.  When the writer does not fail: records
    without errors give a workbook of one sheet, with the declared header
    and one row per record; records with errors give two sheets, the second
    named ["Erreurs"], with one row per error entry; errors without records
    give one sheet only, the sheet of errors, with one row per entry (the
    sheet of records is written only when there are records); with neither,
    no sheet is written, the save fails and the export returns [False].
    In every case the export returns a boolean, [True] exactly when a
    workbook was written, and [False] when the writer failed. *)
Theorem export_sheets (data errors : list record) (io : writer_io) :
  let r := export_to_xlsx_original data errors io in
  (returned r = true <-> is_Some (workbook r))
  /\ (is_Some (open_raises io) \/ is_Some (save_raises io) -> returned r = false)
  /\ (open_raises io = None -> save_raises io = None ->
      match data, errors with
      | _ :: _, [] =>
        exists s, workbook r = Some [s]
                  /\ sheet_name s = u "Sheet1"
                  /\ header s = columns_order
                  /\ length (rows s) = length data
      | _ :: _, _ :: _ =>
        exists s e, workbook r = Some [s; e]
                    /\ header s = columns_order
                    /\ length (rows s) = length data
                    /\ sheet_name e = u "Erreurs"
                    /\ length (rows e) = length errors
      | [], _ :: _ =>
        exists e, workbook r = Some [e]
                  /\ sheet_name e = u "Erreurs"
                  /\ length (rows e) = length errors
      | [], [] => workbook r = None /\ returned r = false
      end).
Proof.
  cbv zeta. destruct (export_signal data errors io) as [Hsig Hfail].
  split; [exact Hsig|]. split; [exact Hfail|].
  intros Hopen Hsave. unfold export_to_xlsx_original. rewrite Hopen, Hsave.
  destruct data as [|d data], errors as [|err errors].
  - split; reflexivity.
  - eexists. split; [reflexivity|]. cbn [sheet_name rows].
    split; [reflexivity|]. apply DataFrame_of_rows.
  - eexists. split; [reflexivity|]. cbn [sheet_name rows header].
    split; [reflexivity|]. split; [reflexivity|].
    rewrite (proj1 (reindex_rows _ _ _)). apply DataFrame_of_rows.
  - eexists. eexists. split; [reflexivity|]. cbn [sheet_name rows header].
    split; [reflexivity|].
    split; [rewrite (proj1 (reindex_rows _ _ _)); apply DataFrame_of_rows|].
    split; [reflexivity|]. apply DataFrame_of_rows.
Qed.

(** C8, at an export of one error entry and no record: the workbook has
    one sheet, not two. *)
Lemma export_errors_only :
  returned (export_to_xlsx_original [] [sample_error] writer_ok) = true
  /\ (exists e, workbook (export_to_xlsx_original [] [sample_error] writer_ok)
                = Some [e]
                /\ sheet_name e = u "Erreurs")
  /\ option_map (@length sheet)
       (workbook (export_to_xlsx_original [] [sample_error] writer_ok))
     <> Some 2.
Proof.
  split; [reflexivity|]. split; [eexists; split; reflexivity|].
  vm_compute. discriminate.
Qed.

Lemma export_sheets_witness :
  exists s e,
    workbook (export_to_xlsx_original [formatted_record sample_raw]
                [sample_error] writer_ok) = Some [s; e]
    /\ header s = columns_order
    /\ length (rows s) = 1
    /\ sheet_name e = u "Erreurs"
    /\ length (rows e) = 1.
Proof.
  exact (proj2 (proj2 (export_sheets [formatted_record sample_raw]
                         [sample_error] writer_ok)) eq_refl eq_refl).
Defined.

(** ** The request handler *)

(** C9.  An upload whose name does not end in [.pdf] (or that has no name),
    or whose size is over 10 MB, is answered with an error before anything
    is done with it: the file is not read, no temporary file is written and
    the extraction is not run.  The status is 400 for the name, 413 for the
    size, 500 for a missing name; it is never 422, the status of a failed
    extraction. *)
Theorem invalid_upload_rejected (pdfplumber_open : str -> document)
    (read : result (list N)) (temp_file : result str) (file : UploadFile) :
  pdf_named file = false \/ too_large file = true ->
  exists status_code detail,
    extract_pdf pdfplumber_open read temp_file file
    = (HTTPException status_code detail, [])
    /\ status_code
       = match upload_filename file with
         | None => 500%N
         | Some name => if endswith name (u ".pdf") then 413%N else 400%N
         end
    /\ (status_code = 400 \/ status_code = 413 \/ status_code = 500)%N
    /\ status_code <> 422%N.
Proof.
  unfold pdf_named, too_large, extract_pdf, handle_upload.
  destruct (upload_filename file) as [name|].
  - destruct (endswith name (u ".pdf")); cbn [negb].
    + intros [H|H]; [discriminate|].
      destruct (upload_size file) as [n|]; [|discriminate].
      rewrite H. apply N.ltb_lt in H.
      destruct (N.eqb_spec n 0) as [->|_]; [unfold max_upload in H; lia|].
      cbn [negb andb]. do 2 eexists. split; [reflexivity|].
      split; [reflexivity|]. split; [auto|discriminate].
    + intros _. do 2 eexists. split; [reflexivity|].
      split; [reflexivity|]. split; [auto|discriminate].
  - intros _. do 2 eexists. split; [reflexivity|].
    split; [reflexivity|]. split; [auto|discriminate].
Qed.

Lemma invalid_upload_rejected_witness :
  exists status_code detail,
    extract_pdf listing_document (Ok []) (Ok (u "/tmp/tmpab12.pdf")) text_upload
    = (HTTPException status_code detail, [])
    /\ status_code
       = match upload_filename text_upload with
         | None => 500%N
         | Some name => if endswith name (u ".pdf") then 413%N else 400%N
         end
    /\ (status_code = 400 \/ status_code = 413 \/ status_code = 500)%N
    /\ status_code <> 422%N.
Proof.
  apply (invalid_upload_rejected listing_document (Ok [])
           (Ok (u "/tmp/tmpab12.pdf")) text_upload).
  left. vm_compute. reflexivity.
Defined.

(** An upload that passes both tests is read, written to a temporary file
    and extracted; the answer has status 200. *)
Lemma valid_upload_extracted (pdfplumber_open : str -> document)
    (pdf_content : list N) (temp_file_path : str) (file : UploadFile) :
  pdf_named file = true -> too_large file = false ->
  exists content,
    extract_pdf pdfplumber_open (Ok pdf_content) (Ok temp_file_path) file
    = (JSONResponse content,
       [ReadUpload; WriteTemp temp_file_path; Extracted temp_file_path;
        Unlink temp_file_path])
    /\ resp_success content = true
    /\ resp_total_properties content = length (resp_properties content).
Proof.
  unfold pdf_named, too_large, extract_pdf, handle_upload.
  destruct (upload_filename file) as [name|]; [|discriminate].
  intros -> Hsize. cbn [negb].
  assert (Hgate : match upload_size file with
                  | Some n => negb (n =? 0)%N && (max_upload <? n)%N
                  | None => false
                  end = false).
  { destruct (upload_size file) as [n|]; [|reflexivity].
    rewrite Hsize. apply andb_false_r. }
  rewrite Hgate. unfold extract_pdf_data_wrapper.
  destruct (extract_pdf_data_returns pdfplumber_open temp_file_path)
    as [props [-> _]].
  eexists. split; [reflexivity|]. split; reflexivity.
Qed.

(* ================================================================== *)
(** * Further properties *)

(** ** The price normaliser *)

Lemma decimal_value_ascii (c : N) :
  (0x30 <= c <= 0x39)%N -> decimal_value c = Some (c - 0x30)%N.
Proof.
  intros Hc. unfold decimal_value, decimal_zeros. cbn [decimal_in].
  destruct (N.leb_spec 0x30 c); [|lia].
  destruct (N.ltb_spec c (0x30 + 10)); [reflexivity|lia].
Qed.

Lemma is_decimal_ascii (c : N) : (0x30 <= c <= 0x39)%N -> is_decimal c = true.
Proof. intros Hc. unfold is_decimal. now rewrite decimal_value_ascii. Qed.

(** Reading the digits that [str] writes gives the number back. *)
Lemma int_digits_uint (d : Decimal.uint) :
  forall acc : N,
    int_digits acc
      (map N_of_ascii (list_ascii_of_string (NilEmpty.string_of_uint d)))
    = Some match acc with
           | 0%N => N.of_uint d
           | N.pos p => N.pos (Pos.of_uint_acc d p)
           end.
Proof.
  induction d as [|d IH|d IH|d IH|d IH|d IH|d IH|d IH|d IH|d IH|d IH];
    intros acc;
    cbn [NilEmpty.string_of_uint list_ascii_of_string map int_digits];
    [now destruct acc|..];
    (match goal with
     | |- context [decimal_value ?c] =>
       let v := eval vm_compute in (decimal_value c) in
       change (decimal_value c) with v
     end;
     cbv beta iota; rewrite IH;
     destruct acc as [|p]; [reflexivity|];
     cbn [Pos.of_uint_acc];
     match goal with
     | |- Some (match ?x with _ => _ end) = Some (N.pos (Pos.of_uint_acc _ ?q)) =>
       replace x with (N.pos q) by lia
     end;
     reflexivity).
Qed.

Lemma int_digits_str_of_int (n : N) : int_digits 0 (str_of_int n) = Some n.
Proof.
  unfold str_of_int, NilZero.string_of_uint.
  pose proof (DecimalN.Unsigned.of_to n) as Hn.
  destruct (N.to_uint n) as [|d|d|d|d|d|d|d|d|d|d] eqn:E.
  - cbn in Hn. subst n. reflexivity.
  - rewrite <- Hn. exact (int_digits_uint (Decimal.D0 d) 0).
  - rewrite <- Hn. exact (int_digits_uint (Decimal.D1 d) 0).
  - rewrite <- Hn. exact (int_digits_uint (Decimal.D2 d) 0).
  - rewrite <- Hn. exact (int_digits_uint (Decimal.D3 d) 0).
  - rewrite <- Hn. exact (int_digits_uint (Decimal.D4 d) 0).
  - rewrite <- Hn. exact (int_digits_uint (Decimal.D5 d) 0).
  - rewrite <- Hn. exact (int_digits_uint (Decimal.D6 d) 0).
  - rewrite <- Hn. exact (int_digits_uint (Decimal.D7 d) 0).
  - rewrite <- Hn. exact (int_digits_uint (Decimal.D8 d) 0).
  - rewrite <- Hn. exact (int_digits_uint (Decimal.D9 d) 0).
Qed.

Lemma str_of_int_not_empty (n : N) : str_of_int n <> [].
Proof.
  intros H. pose proof (int_digits_str_of_int n) as Hn.
  unfold str_of_int, NilZero.string_of_uint in *.
  destruct (N.to_uint n); discriminate.
Qed.

(** Within the bound on digits, reading what [str] writes gives the number
    back. *)
Lemma int_str_of_int (n : N) :
  too_long (str_of_int n) = false -> int (str_of_int n) = Some n.
Proof.
  intros Hlen. unfold int. rewrite Hlen.
  pose proof (str_of_int_not_empty n) as Hne.
  destruct (str_of_int n) eqn:E; [congruence|].
  rewrite <- E. apply int_digits_str_of_int.
Qed.

(** *** The number of digits *)

Lemma decimal_in_lt (zeros : list N) (c k : N) :
  decimal_in zeros c = Some k -> (k < 10)%N.
Proof.
  induction zeros as [|z zeros IH]; [discriminate|].
  cbn [decimal_in].
  destruct (N.leb_spec z c); cbn [andb]; [|exact IH].
  destruct (N.ltb_spec c (z + 10)); [|exact IH].
  intros [= <-]. lia.
Qed.

Lemma digit_value_lt (c : N) : (default 0 (decimal_value c) < 10)%N.
Proof.
  destruct (decimal_value c) as [k|] eqn:E; cbn [default]; [|lia].
  exact (decimal_in_lt _ _ _ E).
Qed.

(** The number that a string of digits denotes is the number of its
    numeral. *)
Lemma digit_number_uint (ds : str) :
  forall acc : N,
    fold_left (fun a c => (a * 10 + default 0 (decimal_value c))%N) ds acc
    = match acc with
      | 0%N => N.of_uint (uint_of_digits ds)
      | N.pos p => N.pos (Pos.of_uint_acc (uint_of_digits ds) p)
      end.
Proof.
  induction ds as [|c ds IH]; intros acc; [now destruct acc|].
  cbn [fold_left uint_of_digits]. rewrite IH.
  pose proof (digit_value_lt c) as Hk.
  set (k := default 0%N (decimal_value c)) in *.
  assert (Hcases : (k = 0 \/ k = 1 \/ k = 2 \/ k = 3 \/ k = 4 \/ k = 5
                    \/ k = 6 \/ k = 7 \/ k = 8 \/ k = 9)%N) by lia.
  clearbody k.
  destruct Hcases as [->|[->|[->|[->|[->|[->|[->|[->|[->| ->]]]]]]]]];
    (destruct acc as [|p]; [reflexivity|];
     cbn [digit_uint Pos.of_uint_acc];
     match goal with
     | |- match ?x with _ => _ end = N.pos (Pos.of_uint_acc _ ?q) =>
       replace x with (N.pos q) by lia
     end;
     reflexivity).
Qed.

Lemma nb_digits_uint_of_digits (ds : str) :
  Decimal.nb_digits (uint_of_digits ds) = length ds.
Proof.
  induction ds as [|c ds IH]; [reflexivity|].
  cbn [uint_of_digits length]. rewrite <- IH.
  unfold digit_uint.
  destruct (default 0%N (decimal_value c)) as [|[[[|[]|]|[[]|[]|]|]|[[|[]|]|[[]|[]|]|]|]];
    reflexivity.
Qed.

Lemma length_string_of_uint (d : Decimal.uint) :
  length (map N_of_ascii (list_ascii_of_string (NilEmpty.string_of_uint d)))
  = Decimal.nb_digits d.
Proof.
  induction d; cbn [NilEmpty.string_of_uint list_ascii_of_string map length
                    Decimal.nb_digits]; congruence.
Qed.

(** Writing the number of a string of digits takes no more digits than
    the string has. *)
Lemma length_str_of_int_digit_number (ds : str) :
  ds <> [] -> length (str_of_int (digit_number ds)) <= length ds.
Proof.
  intros Hne. unfold digit_number. rewrite (digit_number_uint ds 0).
  unfold str_of_int. rewrite DecimalN.Unsigned.to_of.
  unfold NilZero.string_of_uint.
  pose proof (DecimalFacts.unorm_nonnil (uint_of_digits ds)) as Hnil.
  assert (Hd : uint_of_digits ds <> Decimal.Nil).
  { intros H. apply (f_equal Decimal.nb_digits) in H.
    rewrite nb_digits_uint_of_digits in H. destruct ds; [congruence|discriminate]. }
  pose proof (DecimalFacts.nb_digits_unorm _ Hd) as Hle.
  rewrite nb_digits_uint_of_digits in Hle.
  rewrite <- (length_string_of_uint (Decimal.unorm (uint_of_digits ds))) in Hle.
  destruct (Decimal.unorm (uint_of_digits ds)); [congruence|..]; exact Hle.
Qed.

Lemma too_long_str_of_int_digit_number (ds : str) :
  is_empty ds = false -> too_long ds = false ->
  too_long (str_of_int (digit_number ds)) = false.
Proof.
  unfold too_long. intros Hne Hlen.
  apply Nat.ltb_ge in Hlen. apply Nat.ltb_ge.
  assert (ds <> []) by (destruct ds; [discriminate|congruence]).
  pose proof (length_str_of_int_digit_number ds) as H'. 
  etransitivity; [apply H'; assumption|exact Hlen].
Qed.

Lemma filter_all_true {A} (f : A -> bool) (l : list A) :
  Forall (fun x => f x = true) l -> List.filter f l = l.
Proof.
  induction 1 as [|x l Hx _ IH]; [reflexivity|].
  cbn [List.filter]. now rewrite Hx, IH.
Qed.

Lemma sub_non_digits_join (ps : list str) :
  Forall (Forall (fun c => is_decimal c = true)) ps ->
  sub_non_digits (join [space] ps) = concat ps.
Proof.
  unfold sub_non_digits.
  induction 1 as [|p ps Hp Hps IH]; [reflexivity|].
  destruct ps as [|q ps].
  - cbn [join concat]. rewrite app_nil_r. now apply filter_all_true.
  - change (join [space] (p :: q :: ps)) with (p ++ [space] ++ join [space] (q :: ps)).
    rewrite !List.filter_app, IH, (filter_all_true _ p Hp). reflexivity.
Qed.

Lemma str_of_int_groups_decimal (n : N) :
  Forall (Forall (fun c => is_decimal c = true)) (chunks3_right (str_of_int n)).
Proof.
  apply List.Forall_forall. intros p Hp.
  apply List.Forall_forall. intros c Hc.
  apply is_decimal_ascii. exact (chunks3_right_digits n p c Hp Hc).
Qed.

(** The digits of a normalised price are the digits that [str] writes for
    the number. *)
Lemma sub_non_digits_grouped (ds : str) :
  sub_non_digits (grouped_price ds) = str_of_int (digit_number ds).
Proof.
  unfold grouped_price, sub_non_digits. rewrite List.filter_app.
  change (List.filter is_decimal [space; dollar]) with (@nil N).
  rewrite app_nil_r.
  change (List.filter is_decimal ?x) with (sub_non_digits x).
  rewrite sub_non_digits_join by apply str_of_int_groups_decimal.
  apply concat_chunks3_right.
Qed.

(** X1.  Normalising a price never changes the number that its digits
    denote, whatever the input (digits of any script, separators, text
    around them), and it never turns a price that is not empty into the
    empty string. *)
Theorem format_price_keeps_number :
  (forall s : str,
     int (sub_non_digits (_format_price s)) = int (sub_non_digits s))
  /\ (forall s : str, _format_price s = [] <-> s = []).
Proof.
  split; intros s; rewrite format_price_unfold.
  - destruct (is_empty s) eqn:Hs; [now destruct s|].
    destruct (contains dollar s); [reflexivity|].
    destruct (is_empty (sub_non_digits s)) eqn:Hd; [reflexivity|].
    destruct (too_long (sub_non_digits s)) eqn:Hlen; [reflexivity|].
    rewrite sub_non_digits_grouped.
    rewrite int_str_of_int
      by exact (too_long_str_of_int_digit_number _ Hd Hlen).
    now rewrite (int_sub_non_digits s Hd Hlen).
  - destruct s as [|c s]; [tauto|]. cbn [is_empty].
    destruct (contains dollar (c :: s)); [tauto|].
    destruct (is_empty (sub_non_digits (c :: s))); [tauto|].
    destruct (too_long (sub_non_digits (c :: s))); [tauto|].
    unfold grouped_price. split; [|discriminate].
    intros H. apply app_eq_nil in H as [_ H]. discriminate.
Qed.

(** X2.  A price that holds a digit, no currency symbol and no more
    digits than [int] accepts (4300) is rewritten in plain ASCII: the
    result starts with a digit, goes on with digits and spaces, and ends
    with a space and the currency symbol.  Digits of other scripts are
    replaced by the ASCII digits of the same number. *)
Theorem format_price_ascii (s : str) :
  contains dollar s = false ->
  is_empty (sub_non_digits s) = false ->
  length (sub_non_digits s) <= 4300 ->
  exists (first : N) (rest : str),
    _format_price s = first :: rest ++ [space; dollar]
    /\ (0x30 <= first <= 0x39)%N
    /\ Forall price_char rest.
Proof.
  intros Hdollar Hdigits Hbound.
  assert (Hlimit : too_long (sub_non_digits s) = false)
    by (apply Nat.ltb_ge; exact Hbound).
  rewrite format_price_unfold, Hdollar, Hdigits, Hlimit.
  assert (Hs : is_empty s = false) by (destruct s; [discriminate|reflexivity]).
  rewrite Hs. unfold grouped_price.
  set (n := digit_number (sub_non_digits s)).
  assert (Hall : Forall price_char (join [space] (chunks3_right (str_of_int n)))).
  { assert (Hgroups : Forall (Forall price_char) (chunks3_right (str_of_int n))).
    { apply List.Forall_forall. intros p Hp.
      apply List.Forall_forall. intros c Hc. left.
      exact (chunks3_right_digits n p c Hp Hc). }
    induction Hgroups as [|p ps Hp Hps IH]; [constructor|].
    destruct ps as [|q ps]; [exact Hp|].
    change (join [space] (p :: q :: ps)) with (p ++ [space] ++ join [space] (q :: ps)).
    apply Forall_app. split; [exact Hp|].
    apply Forall_app. split; [|exact IH].
    constructor; [now right|constructor]. }
  pose proof (str_of_int_not_empty n) as Hne.
  destruct (chunks3_right_shape (str_of_int n) Hne)
    as [first_run [full [Heq [Hlen _]]]].
  assert (Hfirst : forall c, In c first_run -> (0x30 <= c <= 0x39)%N).
  { intros c Hc. apply (chunks3_right_digits n first_run c); [|exact Hc].
    rewrite Heq. now left. }
  rewrite Heq in *.
  destruct first_run as [|first run]; [cbn in Hlen; lia|].
  exists first.
  destruct full as [|q full].
  - exists run. cbn [join app]. split; [reflexivity|].
    split; [apply Hfirst; now left|].
    cbn [join] in Hall. now inversion Hall.
  - exists (run ++ [space] ++ join [space] (q :: full)).
    change (join [space] ((first :: run) :: q :: full))
      with ((first :: run) ++ [space] ++ join [space] (q :: full)) in *.
    split; [reflexivity|]. split; [apply Hfirst; now left|].
    cbn [app] in Hall. now inversion Hall.
Qed.

Lemma format_price_ascii_witness :
  exists (first : N) (rest : str),
    _format_price (u "٣٤٥٦ dollars") = first :: rest ++ [space; dollar]
    /\ (0x30 <= first <= 0x39)%N
    /\ Forall price_char rest.
Proof.
  apply (format_price_ascii (u "٣٤٥٦ dollars"));
    [vm_compute; reflexivity | vm_compute; reflexivity |].
  change (length (sub_non_digits (u "٣٤٥٦ dollars")) <= 4300)
    with (4 <= 4300).
  apply Nat.leb_le. reflexivity.
Defined.

Example format_price_other_script :
  _format_price (u "٣٤٥٦ dollars") = u "3 456 $".
Proof. vm_compute. reflexivity. Qed.

(** ** The schema adapter *)

Lemma format_price_twice (x : str) :
  _format_price (_format_price x) = _format_price x.
Proof.
  assert (Hdollar : forall s, contains dollar s = true -> _format_price s = s).
  { intros s Hs. rewrite format_price_unfold, Hs. now destruct s. }
  rewrite (format_price_unfold x).
  destruct (is_empty x) eqn:Hx; [reflexivity|].
  destruct (contains dollar x) eqn:Hc; [now apply Hdollar|].
  destruct (is_empty (sub_non_digits x)) eqn:Hd.
  - rewrite format_price_unfold, Hx, Hc, Hd. reflexivity.
  - destruct (too_long (sub_non_digits x)) eqn:Hlen.
    + rewrite format_price_unfold, Hx, Hc, Hd, Hlen. reflexivity.
    + apply Hdollar. unfold grouped_price. apply contains_app_r. reflexivity.
Qed.

(** X3.  The adapter returns either records or one error, never both and
    never neither: when the extractor returns at least one record, each of
    them becomes one canonical record, in the same order, and there is no
    error entry; otherwise there is no record and exactly one error entry,
    whose keys are [NomFichier] and [MessageErreur]. *)
Theorem adapter_outcome
    (extract_from_pdf : str -> result (list (gmap string str))) (pdf_path : str) :
  let '(records, errors) := extract_to_original_format extract_from_pdf pdf_path in
  match extract_from_pdf pdf_path with
  | Ok (property_data :: rest) =>
    records = map formatted_record (property_data :: rest)
    /\ length records = S (length rest)
    /\ errors = []
  | _ =>
    records = []
    /\ exists error_record,
         errors = [error_record]
         /\ map fst error_record = ["NomFichier"; "MessageErreur"]%string
         /\ lookup_key "NomFichier" error_record = Some (path_name pdf_path)
  end.
Proof.
  unfold extract_to_original_format.
  destruct (extract_from_pdf pdf_path) as [[|pd rest]|e].
  - split; [reflexivity|]. eexists. repeat split.
  - rewrite format_all_app. cbn [app].
    split; [reflexivity|]. split; [|reflexivity].
    cbn [map length]. now rewrite length_map.
  - split; [reflexivity|]. eexists. repeat split.
Qed.

(** X4.  A field of the extractor's record that is not one of the eleven
    fields read by the adapter has no effect on the canonical record:
    adding it, changing it or removing it gives the same record. *)
Theorem formatted_record_ignores_other_fields
    (property_data : gmap string str) (key : string) (value : str) :
  ~ In key (map snd column_sources) ->
  formatted_record (<[key := value]> property_data) = formatted_record property_data
  /\ formatted_record (delete key property_data) = formatted_record property_data.
Proof.
  intros Hkey.
  assert (Hins : forall k, In k (map snd column_sources) ->
                   get (<[key := value]> property_data) k = get property_data k).
  { intros k Hk. unfold get. rewrite lookup_insert_ne; [reflexivity|congruence]. }
  assert (Hdel : forall k, In k (map snd column_sources) ->
                   get (delete key property_data) k = get property_data k).
  { intros k Hk. unfold get. rewrite lookup_delete_ne; [reflexivity|congruence]. }
  unfold formatted_record.
  split; [rewrite !Hins by (simpl; tauto) | rewrite !Hdel by (simpl; tauto)];
    reflexivity.
Qed.

Lemma formatted_record_ignores_other_fields_witness :
  formatted_record (<["Superficie"%string := u "1 200 pc"]> sample_raw)
  = formatted_record sample_raw
  /\ formatted_record (delete "Superficie"%string sample_raw)
     = formatted_record sample_raw.
Proof.
  apply (formatted_record_ignores_other_fields sample_raw "Superficie"
           (u "1 200 pc")).
  simpl. intros H. repeat (destruct H as [H|H]; [discriminate H|]). exact H.
Defined.

Lemma lookup_list_to_map_key (key : string) (d : record) :
  (list_to_map d : gmap string str) !! key = lookup_key key d.
Proof.
  induction d as [|[k v] d IH]; [apply lookup_empty|].
  cbn [list_to_map foldr lookup_key]. unfold curry. cbn [fst snd].
  destruct (String.eqb_spec k key) as [->|Hne].
  - apply lookup_insert_eq.
  - rewrite lookup_insert_ne by exact Hne. exact IH.
Qed.

(** X5.  The adapter is not meant for its own output.  Fed a canonical
    record, it keeps the nine columns that are read from a field of the
    same name (the two prices are already normalised and stay as they
    are) and empties the two columns that are read from a shorter name,
    the owners and the representatives. *)
Theorem canonical_input_loses_renamed_columns (property_data : gmap string str) :
  formatted_record (list_to_map (formatted_record property_data))
  = map (fun '(column, value) =>
           (column, if renamed_column column then [] else value))
        (formatted_record property_data).
Proof.
  unfold formatted_record at 1. unfold get.
  rewrite !lookup_list_to_map_key.
  cbn [lookup_key formatted_record String.eqb Ascii.eqb Bool.eqb default].
  unfold id. rewrite !format_price_twice.
  reflexivity.
Qed.

(** ** The stand-alone extractor *)

Lemma length_heuristic (prices types : list str) (addresses : list (str * str)) :
  length (imap (heuristic_record prices types) (take 10 addresses))
  = min 10 (length addresses).
Proof. now rewrite length_imap, length_take. Qed.

Lemma extract_pdf_data_length (pdfplumber_open : str -> document)
    (pdf_path : str) :
  exists props,
    extract_pdf_data pdfplumber_open pdf_path = Ok props
    /\ 1 <= length props <= 10.
Proof.
  unfold extract_pdf_data.
  destruct (pdfplumber_open pdf_path) as [pages|e].
  - destruct (read_pages pages []) as [full_text|e] eqn:Hread.
    + destruct (findall2 address_pattern full_text) as [|a addresses] eqn:Haddr.
      * destruct (first_long_price (findall1 price_pattern full_text))
          as [price|] eqn:Hlong.
        -- rewrite (try_extract_long_price pages full_text price Hread Haddr Hlong).
           eexists. split; [reflexivity|]. cbn. lia.
        -- rewrite (try_extract_placeholders pages full_text Hread Haddr Hlong).
           eexists. split; [reflexivity|]. rewrite length_imap.
           unfold sample_addresses. cbn [length]. lia.
      * rewrite (try_extract_heuristic pages full_text Hread) by congruence.
        eexists. split; [reflexivity|].
        rewrite length_heuristic, Haddr. cbn [length]. lia.
    + rewrite (try_extract_raises (Ok pages) e) by eauto.
      eexists. split; [reflexivity|]. cbn. lia.
  - rewrite (try_extract_raises (Raise e) e) by auto.
    eexists. split; [reflexivity|]. cbn. lia.
Qed.

Lemma read_pages_app (before after : list page) (full_text : str) :
  read_pages (before ++ after) full_text
  = match read_pages before full_text with
    | Ok t => read_pages after t
    | Raise e => Raise e
    end.
Proof.
  revert full_text.
  induction before as [|p before IH]; intros acc; [reflexivity|].
  cbn [app read_pages].
  destruct p as [[[|c t]|]|e]; auto.
Qed.

(** X7.  A page without text does not count: a document gives the same
    result with and without it, wherever the page stands. *)
Theorem blank_page_ignored (open_with open_without : str -> document)
    (pdf_path : str) (before after : list page) (blank : page) :
  blank_page blank ->
  open_with pdf_path = Ok (before ++ blank :: after) ->
  open_without pdf_path = Ok (before ++ after) ->
  extract_pdf_data open_with pdf_path = extract_pdf_data open_without pdf_path.
Proof.
  intros Hblank Hwith Hwithout. unfold extract_pdf_data, try_extract.
  rewrite Hwith, Hwithout, !read_pages_app.
  destruct (read_pages before []) as [t|e]; [|reflexivity].
  destruct Hblank as [-> | ->]; reflexivity.
Qed.

Lemma blank_page_ignored_witness :
  extract_pdf_data
    (fun _ => Ok [Ok None; Ok (Some listing_text); Ok (Some [])]) (u "a.pdf")
  = extract_pdf_data
      (fun _ => Ok [Ok None; Ok (Some listing_text)]) (u "a.pdf").
Proof.
  apply (blank_page_ignored _ _ (u "a.pdf")
           [Ok None; Ok (Some listing_text)] [] (Ok (Some []))).
  - right. reflexivity.
  - reflexivity.
  - reflexivity.
Defined.

Lemma read_pages_all_read (pages : list page) (full_text : str) :
  Forall page_read pages -> exists t, read_pages pages full_text = Ok t.
Proof.
  intros H. revert full_text.
  induction H as [|p pages [t ->] _ IH]; intros acc; [eauto|].
  cbn [read_pages]. destruct t as [[|c t]|]; apply IH.
Qed.

(** X8.  There are no partial results: when a page cannot be read, the
    text of the pages before it is dropped and the pages after it are not
    looked at; the result is the one error entry. *)
Theorem page_failure_discards_text (pdfplumber_open : str -> document)
    (pdf_path : str) (before after : list page) (e : exn) :
  Forall page_read before ->
  pdfplumber_open pdf_path = Ok (before ++ Raise e :: after) ->
  extract_pdf_data pdfplumber_open pdf_path = Ok [error_entry e].
Proof.
  intros Hread Hopen. unfold extract_pdf_data.
  rewrite (try_extract_raises _ e); [reflexivity|].
  right. eexists. split; [exact Hopen|].
  rewrite read_pages_app.
  destruct (read_pages_all_read before [] Hread) as [t ->]. reflexivity.
Qed.

Lemma page_failure_discards_text_witness :
  extract_pdf_data
    (fun _ => Ok [Ok (Some listing_text); Raise no_such_file;
                  Ok (Some listing_text)]) (u "a.pdf")
  = Ok [error_entry no_such_file].
Proof.
  apply (page_failure_discards_text _ (u "a.pdf") [Ok (Some listing_text)]
           [Ok (Some listing_text)] no_such_file).
  - apply List.Forall_cons; [eexists; reflexivity|apply List.Forall_nil].
  - reflexivity.
Defined.

(** *** Trimming *)

Lemma last_rev_head {A} (l : list A) : last (rev l) = head l.
Proof. destruct l as [|x l]; [reflexivity|]. cbn [rev]. apply last_snoc. Qed.

Lemma head_rev_last {A} (l : list A) : head (rev l) = last l.
Proof. rewrite <- (rev_involutive l) at 2. symmetry. apply last_rev_head. Qed.

Lemma lstrip_head (s : str) (c : N) :
  head (lstrip s) = Some c -> is_space c = false.
Proof.
  induction s as [|x s IH]; [discriminate|].
  cbn [lstrip]. destruct (is_space x) eqn:Hx; [exact IH|].
  cbn. intros [= <-]. exact Hx.
Qed.

Lemma lstrip_suffix (s : str) : exists blanks, s = blanks ++ lstrip s.
Proof.
  induction s as [|x s [blanks IH]]; [now exists []|].
  cbn [lstrip]. destruct (is_space x).
  - exists (x :: blanks). cbn. now f_equal.
  - now exists [].
Qed.

Lemma lstrip_last (s : str) (c : N) :
  last (lstrip s) = Some c -> last s = Some c.
Proof.
  intros H. destruct (lstrip_suffix s) as [blanks Hs].
  rewrite Hs, last_app, H. reflexivity.
Qed.

(** [strip] leaves no blank at either end. *)
Lemma strip_trimmed (s : str) : trimmed (strip s).
Proof.
  unfold trimmed, strip. split; intros c.
  - rewrite head_rev_last. intros H.
    apply lstrip_last in H. rewrite last_rev_head in H.
    exact (lstrip_head s c H).
  - rewrite last_rev_head. apply lstrip_head.
Qed.

(** X9.  Every record built from an address match is consistent: its
    address is its street, a comma and a space, and its city; street and
    city carry no blank at either end; and its price ends with the
    currency symbol. *)
Theorem heuristic_records_consistent (pdfplumber_open : str -> document)
    (pdf_path : str) (pages : list page) (full_text : str) :
  pdfplumber_open pdf_path = Ok pages ->
  read_pages pages [] = Ok full_text ->
  findall2 address_pattern full_text <> [] ->
  exists props,
    extract_pdf_data pdfplumber_open pdf_path = Ok props
    /\ Forall (fun p =>
                 address p = street p ++ u ", " ++ city p
                 /\ trimmed (street p)
                 /\ trimmed (city p)
                 /\ exists amount, price p = amount ++ [dollar])
              props.
Proof.
  intros Hopen Hread Haddr. unfold extract_pdf_data.
  rewrite Hopen, (try_extract_heuristic pages full_text Hread Haddr).
  eexists. split; [reflexivity|].
  apply List.Forall_forall. intros p Hp.
  apply list_elem_of_In, list_elem_of_lookup in Hp as [i Hi].
  rewrite list_lookup_imap in Hi.
  destruct (take 10 (findall2 address_pattern full_text) !! i)
    as [[street_ city_]|]; [|discriminate].
  cbn in Hi. injection Hi as <-.
  unfold heuristic_record. cbn [address street city price].
  split; [reflexivity|]. split; [apply strip_trimmed|].
  split; [apply strip_trimmed|]. eexists. reflexivity.
Qed.

Lemma heuristic_records_consistent_witness :
  exists props,
    extract_pdf_data listing_document (u "listing.pdf") = Ok props
    /\ Forall (fun p =>
                 address p = street p ++ u ", " ++ city p
                 /\ trimmed (street p)
                 /\ trimmed (city p)
                 /\ exists amount, price p = amount ++ [dollar])
              props.
Proof.
  apply (heuristic_records_consistent listing_document (u "listing.pdf")
           [Ok (Some listing_text)] (listing_text ++ [0x0a%N])).
  - reflexivity.
  - vm_compute. reflexivity.
  - vm_compute. discriminate.
Defined.

Lemma find_all_false {A} (f : A -> bool) (l : list A) :
  (forall x, In x l -> f x = false) -> List.find f l = None.
Proof.
  induction l as [|x l IH]; intros H; [reflexivity|].
  cbn [List.find]. rewrite (H x) by now left.
  apply IH. intros y Hy. apply H. now right.
Qed.

(** X10.  In the fallback, when none of the first three price matches
    has more digits than [int] accepts, the prices of the three records
    come from these matches: a match with fewer than four digits is
    skipped; the others are written with spaces between the groups of
    three digits and the currency symbol directly behind.  When none is
    left the three default texts are used; otherwise the records that have
    no price of their own get ["Prix N/A"]. *)
Theorem placeholder_prices_rule (pdfplumber_open : str -> document)
    (pdf_path : str) (pages : list page) (full_text : str) :
  pdfplumber_open pdf_path = Ok pages ->
  read_pages pages [] = Ok full_text ->
  findall2 address_pattern full_text = [] ->
  Forall (fun price => length (sub_non_digits price) <= 4300)
         (take 3 (findall1 price_pattern full_text)) ->
  exists props,
    extract_pdf_data pdfplumber_open pdf_path = Ok props
    /\ map price props
       = match omap cleaned_price (take 3 (findall1 price_pattern full_text)) with
         | [] => default_sample_prices
         | cleaned => take 3 (cleaned ++ replicate 3 (u "Prix N/A"))
         end.
Proof.
  intros Hopen Hread Haddr Hbound.
  assert (Hlong : first_long_price (findall1 price_pattern full_text) = None).
  { unfold first_long_price. apply find_all_false.
    rewrite List.Forall_forall in Hbound. intros price Hin.
    apply Nat.ltb_ge. exact (Hbound price Hin). }
  unfold extract_pdf_data. rewrite Hopen.
  rewrite (try_extract_placeholders pages full_text Hread Haddr Hlong).
  eexists. split; [reflexivity|].
  destruct (omap cleaned_price (take 3 (findall1 price_pattern full_text)))
    as [|a [|b [|c r]]]; reflexivity.
Qed.

Lemma placeholder_prices_rule_witness :
  exists props,
    extract_pdf_data notice_document (u "notice.pdf") = Ok props
    /\ map price props
       = match omap cleaned_price
                 (take 3 (findall1 price_pattern
                            (u "Prix demande: 1,250,000 $" ++ [0x0a%N]))) with
         | [] => default_sample_prices
         | cleaned => take 3 (cleaned ++ replicate 3 (u "Prix N/A"))
         end.
Proof.
  apply (placeholder_prices_rule notice_document (u "notice.pdf")
           [Ok (Some (u "Prix demande: 1,250,000 $"))]).
  - reflexivity.
  - vm_compute. reflexivity.
  - vm_compute. reflexivity.
  - replace (take 3 (findall1 price_pattern
                       (u "Prix demande: 1,250,000 $" ++ [0x0a%N])))
      with [u "1,250,000"] by (vm_compute; reflexivity).
    apply List.Forall_cons; [|apply List.Forall_nil].
    change (length (sub_non_digits (u "1,250,000")) <= 4300) with (7 <= 4300).
    apply Nat.leb_le. reflexivity.
Defined.

(** X6.  Whatever the file holds, [extract_pdf_data] returns between one
    and ten entries (one for a failure, three for the fallback, one for
    each of the first ten addresses otherwise), and the summary of
    [extract_centris_detailed] agrees with them: its entries are exactly
    those of [extract_pdf_data], its count is their number, and its file
    name is the last component of the path. *)
Theorem detailed_counts (pdfplumber_open : str -> document) (pdf_path : str) :
  let d := extract_centris_detailed pdfplumber_open pdf_path in
  extract_pdf_data pdfplumber_open pdf_path = Ok (properties d)
  /\ total_properties d = length (properties d)
  /\ 1 <= length (properties d) <= 10
  /\ filename d = path_name pdf_path.
Proof.
  cbv zeta. unfold extract_centris_detailed.
  destruct (extract_pdf_data_length pdfplumber_open pdf_path)
    as [props [-> Hlen]].
  cbn [properties total_properties filename]. auto.
Qed.

(** ** The export sink *)

Lemma filter_seen (keys l : list string) :
  (forall k, In k l -> In k keys) ->
  List.filter (fun k => negb (existsb (String.eqb k) keys)) l = [].
Proof.
  induction l as [|k l IH]; intros Hin; [reflexivity|].
  cbn [List.filter].
  assert (Hk : existsb (String.eqb k) keys = true).
  { apply existsb_exists. exists k. split; [apply Hin; now left|].
    apply String.eqb_refl. }
  rewrite Hk. cbn [negb]. apply IH. intros x Hx. apply Hin. now right.
Qed.

Lemma union_keys_seen (keys : list string) (ds : list record) :
  Forall (fun d : record => map fst d = keys) ds -> union_keys keys ds = keys.
Proof.
  induction 1 as [|d ds Hd _ IH]; [reflexivity|].
  cbn [union_keys]. rewrite Hd, filter_seen by auto.
  now rewrite app_nil_r.
Qed.

(** The frame built from canonical records has the declared columns. *)
Lemma DataFrame_of_canonical (pd : gmap string str) (rest : list (gmap string str)) :
  columns (DataFrame_of (map formatted_record (pd :: rest))) = columns_order.
Proof.
  unfold DataFrame_of. cbn [columns map union_keys existsb negb].
  rewrite formatted_record_keys.
  change (List.filter (fun _ : string => true) columns_order) with columns_order.
  cbn [app]. apply union_keys_seen.
  apply List.Forall_forall. intros d Hd.
  apply in_map_iff in Hd as [pd' [<- _]]. apply formatted_record_keys.
Qed.

(** The row written for a canonical record: its eleven values, in order. *)
Lemma canonical_row (pd : gmap string str) :
  map (fun c =>
         match index_of c columns_order with
         | Some i =>
           mjoin (map (fun c' => lookup_key c' (formatted_record pd)) columns_order
                    !! i)
         | None => Some []
         end) columns_order
  = map (fun kv => Some kv.2) (formatted_record pd).
Proof. cbv - [get _format_price]. reflexivity. Qed.

Lemma export_rows_canonical (pd : gmap string str) (rest : list (gmap string str)) :
  values (reindex columns_order []
            (DataFrame_of (map formatted_record (pd :: rest))))
  = map (fun pd' => map (fun kv => Some kv.2) (formatted_record pd')) (pd :: rest).
Proof.
  unfold reindex. cbn [values]. rewrite DataFrame_of_canonical.
  unfold DataFrame_of. cbn [values columns].
  change (union_keys [] (map formatted_record (pd :: rest)))
    with (columns (DataFrame_of (map formatted_record (pd :: rest)))).
  rewrite DataFrame_of_canonical, !map_map.
  apply map_ext. intros pd'. apply canonical_row.
Qed.

(** X11.  The records of the adapter go through the export unchanged: the
    sheet of records has the declared header and one row per record, and
    each row holds the eleven values of its record, in the order of the
    columns. *)
Theorem export_rows_of_adapter (property_data : gmap string str)
    (rest : list (gmap string str)) (errors : list record) (io : writer_io) :
  open_raises io = None ->
  save_raises io = None ->
  exists data_sheet others,
    workbook (export_to_xlsx_original
                (map formatted_record (property_data :: rest)) errors io)
    = Some (data_sheet :: others)
    /\ header data_sheet = columns_order
    /\ rows data_sheet
       = map (fun pd => map (fun kv => Some kv.2) (formatted_record pd))
             (property_data :: rest).
Proof.
  intros Hopen Hsave. unfold export_to_xlsx_original. rewrite Hopen, Hsave.
  cbn [map]. destruct errors as [|err errors]; cbn [app workbook];
    (do 2 eexists; split; [reflexivity|]; cbn [header rows];
     split; [reflexivity | exact (export_rows_canonical property_data rest)]).
Qed.

Lemma export_rows_of_adapter_witness :
  exists data_sheet others,
    workbook (export_to_xlsx_original
                (map formatted_record [sample_raw]) [] writer_ok)
    = Some (data_sheet :: others)
    /\ header data_sheet = columns_order
    /\ rows data_sheet
       = map (fun pd => map (fun kv => Some kv.2) (formatted_record pd))
             [sample_raw].
Proof.
  exact (export_rows_of_adapter sample_raw [] [] writer_ok eq_refl eq_refl).
Defined.

Lemma foldl_max_init {A} (g : A -> nat) (l : list A) (init : nat) :
  init <= foldl (fun m x => max m (g x)) init l.
Proof.
  revert init. induction l as [|x l IH]; intros init; cbn [foldl]; [lia|].
  specialize (IH (max init (g x))). lia.
Qed.

Lemma foldl_max_elem {A} (g : A -> nat) (l : list A) (init : nat) (x : A) :
  In x l -> g x <= foldl (fun m y => max m (g y)) init l.
Proof.
  revert init. induction l as [|y l IH]; intros init; [intros []|].
  cbn [foldl]. intros [-> | Hin]; [|now apply IH].
  pose proof (foldl_max_init g l (max init (g x))). lia.
Qed.

(** X12.  Each of the eleven columns of the sheet of records gets a width:
    never more than 60, and otherwise wide enough for the header and for
    every cell of the column, with two characters to spare. *)
Theorem export_column_widths (first : record) (data errors : list record)
    (io : writer_io) :
  open_raises io = None ->
  save_raises io = None ->
  exists data_sheet others,
    workbook (export_to_xlsx_original (first :: data) errors io)
    = Some (data_sheet :: others)
    /\ length (widths data_sheet) = 11
    /\ forall (i : nat) (name : string) (w : nat),
         columns_order !! i = Some name ->
         widths data_sheet !! i = Some w ->
         w <= 60
         /\ min (length (u name) + 2) 60 <= w
         /\ forall (row : list cell) (c : cell),
              In row (rows data_sheet) -> row !! i = Some c ->
              min (cell_length c + 2) 60 <= w.
Proof.
  intros Hopen Hsave. unfold export_to_xlsx_original. rewrite Hopen, Hsave.
  set (df := reindex columns_order [] (DataFrame_of (first :: data))).
  assert (Hcols : columns df = columns_order) by reflexivity.
  assert (Hsheet : forall others : list sheet,
            exists data_sheet,
              {| sheet_name := u "Sheet1"; header := columns df;
                 rows := values df;
                 widths := imap (adjusted_width df) (columns df) |} :: others
              = data_sheet :: others
              /\ length (widths data_sheet) = 11
              /\ forall (i : nat) (name : string) (w : nat),
                   columns_order !! i = Some name ->
                   widths data_sheet !! i = Some w ->
                   w <= 60
                   /\ min (length (u name) + 2) 60 <= w
                   /\ forall (row : list cell) (c : cell),
                        In row (rows data_sheet) -> row !! i = Some c ->
                        min (cell_length c + 2) 60 <= w).
  { intros others. eexists. split; [reflexivity|]. cbn [widths rows].
    split; [now rewrite length_imap, Hcols|].
    intros i name w Hname Hw.
    rewrite list_lookup_imap, Hcols, Hname in Hw.
    change (Some (adjusted_width df i name) = Some w) in Hw.
    injection Hw as <-. unfold adjusted_width. cbv zeta.
    split; [lia|]. split.
    - pose proof (foldl_max_init
                    (fun row : list cell => cell_length (mjoin (row !! i)))
                    (values df) (length (u name))). lia.
    - intros row c Hrow Hc.
      assert (Hmax : cell_length c
                     <= foldl (fun (m : nat) (row0 : list cell) =>
                                 max m (cell_length (mjoin (row0 !! i))))
                              (length (u name)) (values df)).
      { replace (cell_length c)
          with ((fun row0 : list cell => cell_length (mjoin (row0 !! i))) row)
          by (cbv beta; unfold cell in *; rewrite Hc; reflexivity).
        exact (foldl_max_elem
                 (fun row0 : list cell => cell_length (mjoin (row0 !! i)))
                 (values df) (length (u name)) row Hrow). }
      lia. }
  destruct errors as [|err errors]; cbn [app workbook].
  - destruct (Hsheet []) as [s [Heq Hs]]. exists s, []. now rewrite Heq.
  - match goal with
    | |- context [Some (_ :: ?rest)] =>
      destruct (Hsheet rest) as [s [Heq Hs]]; exists s, rest
    end.
    now rewrite Heq.
Qed.

Lemma export_column_widths_witness :
  exists data_sheet others,
    workbook (export_to_xlsx_original [formatted_record sample_raw] [] writer_ok)
    = Some (data_sheet :: others)
    /\ length (widths data_sheet) = 11
    /\ forall (i : nat) (name : string) (w : nat),
         columns_order !! i = Some name ->
         widths data_sheet !! i = Some w ->
         w <= 60
         /\ min (length (u name) + 2) 60 <= w
         /\ forall (row : list cell) (c : cell),
              In row (rows data_sheet) -> row !! i = Some c ->
              min (cell_length c + 2) 60 <= w.
Proof.
  exact (export_column_widths (formatted_record sample_raw) [] [] writer_ok
           eq_refl eq_refl).
Defined.

(** X13.  What the adapter returns can always be exported: with a writer
    that does not fail, the export of the adapter's records and errors
    returns [True] and writes exactly one sheet, the sheet of records when
    the extractor gave records, the sheet of errors, with one row, when it
    gave none or raised. *)
Theorem adapter_then_export
    (extract_from_pdf : str -> result (list (gmap string str)))
    (pdf_path : str) (io : writer_io) :
  open_raises io = None ->
  save_raises io = None ->
  let '(data, errors) := extract_to_original_format extract_from_pdf pdf_path in
  returned (export_to_xlsx_original data errors io) = true
  /\ exists only_sheet,
       workbook (export_to_xlsx_original data errors io) = Some [only_sheet]
       /\ match extract_from_pdf pdf_path with
          | Ok (_ :: _) =>
            sheet_name only_sheet = u "Sheet1"
            /\ length (rows only_sheet) = length data
          | _ =>
            sheet_name only_sheet = u "Erreurs"
            /\ length (rows only_sheet) = 1
          end.
Proof.
  intros Hopen Hsave. unfold extract_to_original_format.
  destruct (extract_from_pdf pdf_path) as [[|pd rest]|e].
  - unfold export_to_xlsx_original. rewrite Hopen, Hsave.
    split; [reflexivity|]. eexists. split; [reflexivity|]. split; reflexivity.
  - rewrite format_all_app. cbn [app map].
    unfold export_to_xlsx_original. rewrite Hopen, Hsave.
    split; [reflexivity|]. eexists. split; [reflexivity|].
    split; [reflexivity|]. cbn [rows].
    rewrite (proj1 (reindex_rows _ _ _)). apply DataFrame_of_rows.
  - unfold export_to_xlsx_original. rewrite Hopen, Hsave.
    split; [reflexivity|]. eexists. split; [reflexivity|]. split; reflexivity.
Qed.

Lemma adapter_then_export_witness :
  returned (export_to_xlsx_original [] [sample_error] writer_ok) = true
  /\ exists only_sheet,
       workbook (export_to_xlsx_original [] [sample_error] writer_ok)
       = Some [only_sheet]
       /\ sheet_name only_sheet = u "Erreurs"
       /\ length (rows only_sheet) = 1.
Proof.
  exact (adapter_then_export (fun _ => Ok []) (u "rapport.pdf") writer_ok
           eq_refl eq_refl).
Defined.

(** ** The request handler *)

Lemma endswith_spec (s suffix : str) :
  endswith s suffix = true <-> exists base, s = base ++ suffix.
Proof.
  unfold endswith. rewrite bool_decide_eq_true. split.
  - intros H. exists (take (length s - length suffix) s).
    pose proof (take_drop (length s - length suffix) s) as Htd.
    rewrite H in Htd. now symmetry.
  - intros [base ->]. rewrite length_app.
    replace (length base + length suffix - length suffix) with (length base)
      by lia.
    apply drop_app_length.
Qed.

Lemma size_gate (file : UploadFile) :
  match upload_size file with
  | Some n => negb (n =? 0)%N && (max_upload <? n)%N
  | None => false
  end = too_large file.
Proof.
  unfold too_large. destruct (upload_size file) as [n|]; [|reflexivity].
  destruct (N.ltb_spec max_upload n) as [H|H]; [|apply andb_false_r].
  destruct (N.eqb_spec n 0) as [->|_]; [unfold max_upload in H; lia|reflexivity].
Qed.

(** X14.  The handler never answers 422: since the extractor turns its own
    failures into an entry of the list, the status of a failed extraction
    cannot occur.  The status is 200, 400, 413 or 500, and it is 200 exactly
    when the name ends in [.pdf], the size is not over the limit, the
    upload could be read and the temporary file could be written. *)
Theorem extract_pdf_statuses (pdfplumber_open : str -> document)
    (read : result (list N)) (temp_file : result str) (file : UploadFile) :
  let answer := (extract_pdf pdfplumber_open read temp_file file).1 in
  status answer <> 422%N
  /\ (status answer = 200 \/ status answer = 400
      \/ status answer = 413 \/ status answer = 500)%N
  /\ (status answer = 200%N
      <-> pdf_named file = true /\ too_large file = false
          /\ (exists pdf_content, read = Ok pdf_content)
          /\ (exists temp_file_path, temp_file = Ok temp_file_path)).
Proof.
  cbv zeta. unfold extract_pdf, handle_upload, pdf_named.
  rewrite (size_gate file).
  destruct (upload_filename file) as [name|]; cbn [fst status].
  - destruct (endswith name (u ".pdf")); cbn [negb fst status].
    + destruct (too_large file); cbn [fst status].
      * split; [discriminate|]. split; [auto|].
        split; [discriminate|]. intros (_ & H & _). discriminate.
      * destruct read as [pdf_content|e]; cbn [fst status].
        -- destruct temp_file as [temp_file_path|e]; cbn [fst status].
           ++ unfold extract_pdf_data_wrapper.
              destruct (extract_pdf_data_length pdfplumber_open temp_file_path)
                as [props [-> _]].
              cbn [fst status]. split; [discriminate|]. split; [auto|].
              split; [eauto 10|reflexivity].
           ++ split; [discriminate|]. split; [auto|].
              split; [discriminate|]. intros (_ & _ & _ & p & H). discriminate.
        -- split; [discriminate|]. split; [auto|].
           split; [discriminate|]. intros (_ & _ & (c & H) & _). discriminate.
    + split; [discriminate|]. split; [auto|].
      split; [discriminate|]. intros (H & _). discriminate.
  - split; [discriminate|]. split; [auto|].
    split; [discriminate|]. intros (H & _). discriminate.
Qed.

(** X15.  A file that passes the tests but cannot be opened as a PDF is
    answered like a success: status 200 with [success] true, a count of
    one and the message of a successful extraction; the one entry is the
    error entry, of type ["Erreur"].  The temporary file is removed after
    the extraction. *)
Theorem unreadable_upload_answered_200 (pdfplumber_open : str -> document)
    (pdf_content : list N) (temp_file_path : str) (file : UploadFile)
    (name : str) (e : exn) :
  upload_filename file = Some name ->
  pdf_named file = true ->
  too_large file = false ->
  pdfplumber_open temp_file_path = Raise e ->
  extract_pdf pdfplumber_open (Ok pdf_content) (Ok temp_file_path) file
  = (JSONResponse
       {| resp_success := true;
          resp_filename := name;
          resp_total_properties := 1;
          resp_properties := [error_entry e];
          resp_message := u "Successfully extracted 1 properties" |},
     [ReadUpload; WriteTemp temp_file_path; Extracted temp_file_path;
      Unlink temp_file_path]).
Proof.
  intros Hname Hpdf Hsize Hopen.
  unfold extract_pdf, handle_upload. rewrite (size_gate file), Hsize.
  unfold pdf_named in Hpdf. rewrite Hname in *. rewrite Hpdf. cbn [negb].
  unfold extract_pdf_data_wrapper, extract_pdf_data.
  rewrite Hopen. reflexivity.
Qed.

Lemma unreadable_upload_answered_200_witness :
  extract_pdf unreadable (Ok []) (Ok (u "/tmp/tmpab12.pdf")) corrupt_upload
  = (JSONResponse
       {| resp_success := true;
          resp_filename := u "rapport.pdf";
          resp_total_properties := 1;
          resp_properties := [error_entry no_such_file];
          resp_message := u "Successfully extracted 1 properties" |},
     [ReadUpload; WriteTemp (u "/tmp/tmpab12.pdf");
      Extracted (u "/tmp/tmpab12.pdf"); Unlink (u "/tmp/tmpab12.pdf")]).
Proof.
  apply (unreadable_upload_answered_200 unreadable [] (u "/tmp/tmpab12.pdf")
           corrupt_upload (u "rapport.pdf") no_such_file).
  - reflexivity.
  - vm_compute. reflexivity.
  - vm_compute. reflexivity.
  - reflexivity.
Defined.

(** X16.  The test on the name is an exact, case-sensitive test of the
    last four characters: a name passes exactly when it is some text
    followed by [.pdf].  So a name that ends in [.PDF] is refused with
    status 400, whatever the size, before anything is read. *)
Theorem extension_is_case_sensitive :
  (forall file : UploadFile,
     pdf_named file = true
     <-> exists base, upload_filename file = Some (base ++ u ".pdf"))
  /\ (forall (pdfplumber_open : str -> document) (read : result (list N))
             (temp_file : result str) (base : str) (size : option N),
        extract_pdf pdfplumber_open read temp_file
          {| upload_filename := Some (base ++ u ".PDF"); upload_size := size |}
        = (HTTPException 400 (u "File must be a PDF"), [])).
Proof.
  split.
  - intros file. unfold pdf_named.
    destruct (upload_filename file) as [name|].
    + rewrite endswith_spec. split; intros [base H]; exists base; congruence.
    + split; [discriminate|]. intros [base H]. discriminate.
  - intros open read temp base size.
    unfold extract_pdf, handle_upload. cbn [upload_filename].
    assert (H : endswith (base ++ u ".PDF") (u ".pdf") = false).
    { unfold endswith. apply bool_decide_eq_false.
      rewrite length_app.
      replace (length base + length (u ".PDF") - length (u ".pdf"))
        with (length base) by (vm_compute length; lia).
      rewrite drop_app_length. vm_compute. discriminate. }
    rewrite H. reflexivity.
Qed.

(** ** The spreadsheet endpoint *)


Lemma DataFrame_of_properties (p : property) (ps : list property) :
  DataFrame_of (map property_items (p :: ps))
  = {| columns := ["address"; "price"; "type"; "city"; "street"]%string;
       values := map (fun q => [Some (address q); Some (price q);
                                Some (type q); Some (city q);
                                Some (street q)])
                     (p :: ps) |}.
Proof.
  assert (Hcols : union_keys [] (map property_items (p :: ps))
                  = ["address"; "price"; "type"; "city"; "street"]%string).
  { cbn [map union_keys]. apply union_keys_seen.
    apply List.Forall_forall. intros d Hd.
    apply in_map_iff in Hd as [q [<- _]]. reflexivity. }
  unfold DataFrame_of. rewrite Hcols. f_equal.
  rewrite map_map. apply map_ext. intros q. reflexivity.
Qed.

Lemma export_widths_capped (df : DataFrame) :
  Forall (fun w => 2 <= w <= 50) (imap (export_width df) (columns df)).
Proof.
  apply Forall_lookup. intros i w Hw. rewrite list_lookup_imap in Hw.
  destruct (columns df !! i) as [name|]; [|discriminate].
  change (Some (export_width df i name) = Some w) in Hw.
  injection Hw as <-. unfold export_width. cbv zeta. lia.
Qed.

(** X18.  What [extract_pdf] answered can be sent to [export_excel] as it
    is: the workbook has one sheet, named ["Centris Data"], whose header is
    the five keys of a property in the order [address], [price], [type],
    [city], [street], with one row per property holding its five values;
    and no column is wider than 50. *)
Theorem export_excel_of_extracted (http_exception_str : N -> str -> str)
    (p : property) (ps : list property) (name : option str) :
  exists only_sheet content_disposition,
    export_excel http_exception_str None
      {| req_properties := Some (map property_items (p :: ps));
         req_filename := name |}
    = StreamingResponse [only_sheet] xlsx_media_type content_disposition
    /\ sheet_name only_sheet = u "Centris Data"
    /\ header only_sheet = ["address"; "price"; "type"; "city"; "street"]%string
    /\ rows only_sheet
       = map (fun q => [Some (address q); Some (price q); Some (type q);
                        Some (city q); Some (street q)])
             (p :: ps)
    /\ length (widths only_sheet) = 5
    /\ Forall (fun w => 2 <= w <= 50) (widths only_sheet).
Proof.
  pose proof (DataFrame_of_properties p ps) as Hdf.
  unfold export_excel.
  cbn [req_properties req_filename default map] in *.
  cbv zeta. unfold id. rewrite Hdf.
  do 2 eexists. split; [reflexivity|].
  cbn [sheet_name header rows widths columns values].
  split; [reflexivity|]. split; [reflexivity|]. split; [reflexivity|].
  split; [now rewrite length_imap|].
  exact (export_widths_capped
           {| columns := ["address"; "price"; "type"; "city"; "street"]%string;
              values := [Some (address p); Some (price p); Some (type p);
                         Some (city p); Some (street p)]
                        :: map (fun q => [Some (address q); Some (price q);
                                          Some (type q); Some (city q);
                                          Some (street q)]) ps |}).
Qed.

Lemma replace_from_prefix (old new base rest : str) :
  (forall i, i < length base -> starts_with old (drop i (base ++ rest)) = false) ->
  replace_from old new 0 (base ++ rest) = base ++ replace_from old new 0 rest.
Proof.
  induction base as [|c base IH]; intros H; [reflexivity|].
  cbn [app replace_from].
  pose proof (H 0 ltac:(cbn [length]; lia)) as H0.
  cbn [drop app] in H0. rewrite H0.
  f_equal. apply IH. intros i Hi.
  apply (H (S i)). cbn [length]. lia.
Qed.

(** X19.  The name of the download: when the file name ends in [.pdf] and
    holds no other [.pdf], the header names the same file with [.xlsx]
    instead. *)
Theorem download_name (http_exception_str : N -> str -> str)
    (p : record) (ps : list record) (base : str) :
  (forall i, i < length base ->
     starts_with (u ".pdf") (drop i (base ++ u ".pdf")) = false) ->
  replace (u ".pdf") (u ".xlsx") (base ++ u ".pdf") = base ++ u ".xlsx"
  /\ exists sheets,
       export_excel http_exception_str None
         {| req_properties := Some (p :: ps);
            req_filename := Some (base ++ u ".pdf") |}
       = StreamingResponse sheets xlsx_media_type
           (u "attachment; filename=" ++ base ++ u ".xlsx").
Proof.
  intros Hbase.
  assert (Hname : replace (u ".pdf") (u ".xlsx") (base ++ u ".pdf")
                  = base ++ u ".xlsx").
  { unfold replace. rewrite (replace_from_prefix _ _ _ _ Hbase).
    f_equal. }
  split; [exact Hname|].
  unfold export_excel. cbn [req_properties req_filename default].
  unfold id. rewrite Hname. eexists. reflexivity.
Qed.

Lemma download_name_witness :
  replace (u ".pdf") (u ".xlsx") (u "rapport" ++ u ".pdf")
  = u "rapport" ++ u ".xlsx"
  /\ exists sheets,
       export_excel framework_str None
         {| req_properties := Some [sample_error];
            req_filename := Some (u "rapport" ++ u ".pdf") |}
       = StreamingResponse sheets xlsx_media_type
           (u "attachment; filename=" ++ u "rapport" ++ u ".xlsx").
Proof.
  apply (download_name framework_str sample_error [] (u "rapport")).
  intros i Hi.
  do 7 (destruct i as [|i]; [vm_compute; reflexivity|]).
  vm_compute in Hi. lia.
Defined.
